(** * SmartRail Shield, pilot drowsiness detection ([drows_streamlit.py])

    A shallow embedding of the detection script: the two-pass eye
    detection and the per-face loop, the drowsiness logic that runs once
    per frame on [st.session_state], and the polling loop around them with
    its camera handle.

    Conventions.
    - Timestamps ([time.time()]) and the threshold slider are rationals, in
      seconds; the floating-point rounding of the subtraction is not
      modelled.
    - The two Haar cascades are external: [detectMultiScale] is a variable
      of the development, a function that either returns Regions or raises.
    - Drawing on the frame ([cv2.rectangle], [cv2.putText]) and the
      dashboard widgets are recorded as events where a property needs them
      and are left out otherwise. *)

From Stdlib Require Import String.
From Stdlib Require Import List Bool Arith ZArith QArith Lia Lqa Sorted Permutation.
Import ListNotations.

(* ================================================================= *)
(** ** Regions, images and cascade parameters *)

(** A rectangle [(x, y, w, h)] as [detectMultiScale] returns it. *)
Record Region := mkRegion { rx : nat; ry : nat; rw : nat; rh : nat }.

(** A grayscale image: rows of pixel values. *)
Definition Image := list (list Z).

(** [gray[y:y + h, x:x + w]]: the slice is clipped at the image border,
    as [skipn] and [firstn] are. *)
Definition crop (img : Image) (r : Region) : Image :=
  map (fun row => firstn (rw r) (skipn (rx r) row))
      (firstn (rh r) (skipn (ry r) img)).

(** The keyword arguments of [CascadeClassifier.detectMultiScale]; a size
    argument that is not passed is [None]. *)
Record CascadeParams := mkParams {
  scaleFactor : Q;
  minNeighbors : Z;
  minSize : option (nat * nat);
  maxSize : option (nat * nat)
}.

Inductive Cascade := face_cascade | eye_cascade.

(** [face_cascade.detectMultiScale(gray, 1.3, 5)] *)
Definition face_params : CascadeParams :=
  mkParams 1.3 5 None None.

(** First pass: strict detection. *)
Definition strict_params (eye_detection_sensitivity : Z) : CascadeParams :=
  mkParams 1.1 eye_detection_sensitivity (Some (15, 15)%nat) (Some (80, 80)%nat).

(** Second pass: the more lenient parameters. *)
Definition lenient_params (eye_detection_sensitivity : Z) : CascadeParams :=
  mkParams 1.05 (Z.max 1 (eye_detection_sensitivity - 1)) (Some (12, 12)%nat) None.

(* ================================================================= *)
(** ** Detector calls: a log of invocations and exceptions *)

Inductive Outcome (A : Type) :=
| Returned (a : A)
| Raised (e : string).

Arguments Returned {A} a.
Arguments Raised {A} e.

(** One invocation of a cascade. *)
Record Call := mkCall {
  callee : Cascade;
  call_image : Image;
  call_params : CascadeParams
}.

(** A computation that invokes cascades: the invocations it made, in
    order, and its result or the exception that ended it. *)
Definition M (A : Type) : Type := (list Call * Outcome A)%type.

Definition mret {A} (a : A) : M A := ([], Returned a).

Definition bind {A B} (m : M A) (f : A -> M B) : M B :=
  match m with
  | (l1, Returned a) => let (l2, o) := f a in (l1 ++ l2, o)
  | (l1, Raised e) => (l1, Raised e)
  end.

Notation "x <- m ;; k" := (bind m (fun x => k))
  (at level 61, m at next level, right associativity).

Definition calls {A} (m : M A) : list Call := fst m.
Definition outcome {A} (m : M A) : Outcome A := snd m.

Section Script.

(** The cascades themselves: pure functions of the image and the
    parameters, which may raise. *)
Variable detectMultiScale :
  Cascade -> Image -> CascadeParams -> Outcome (list Region).

Variable eye_detection_sensitivity : Z.

Definition invoke (c : Cascade) (img : Image) (p : CascadeParams)
  : M (list Region) :=
  ([mkCall c img p], detectMultiScale c img p).

(** Lines 209-224: the strict pass, and the lenient one when it found
    nothing. *)
Definition detect_eyes (roi_gray : Image) : M (list Region) :=
  eyes <- invoke eye_cascade roi_gray (strict_params eye_detection_sensitivity) ;;
  if (length eyes =? 0)%nat
  then invoke eye_cascade roi_gray (lenient_params eye_detection_sensitivity)
  else mret eyes.

(** Lines 202-233: the loop over the faces, on the pair
    [(drowsy, eyes_detected)]. *)
Fixpoint face_loop (gray : Image) (faces : list Region)
         (acc : bool * nat) : M (bool * nat) :=
  match faces with
  | [] => mret acc
  | f :: rest =>
      eyes <- detect_eyes (crop gray f) ;;
      let eyes_detected := length eyes in
      let drowsy := if (0 <? eyes_detected)%nat then false else fst acc in
      face_loop gray rest (drowsy, eyes_detected)
  end.

(** Lines 197-233: [drowsy = True], [eyes_detected = 0], then the loop. *)
Definition detect_frame (gray : Image) : M (bool * nat) :=
  faces <- invoke face_cascade gray face_params ;;
  face_loop gray faces (true, 0%nat).

(** The eye Regions the two passes settle on for one face of the frame. *)
Definition eyes_of (gray : Image) (f : Region) : Outcome (list Region) :=
  outcome (detect_eyes (crop gray f)).

(* ================================================================= *)
(** ** The drowsiness logic *)

(** The keys of [st.session_state] the logic reads and writes. *)
Record SessionState := mkState {
  closed_start : option Q;
  alarm_on : bool;
  total_alerts : nat;
  play_alarm : bool
}.

(** Session state initialization (lines 111-118). *)
Definition initial_state : SessionState :=
  mkState None false 0 false.

Inductive Status := SAFE | ALERT.

(** What one frame does besides updating the state. *)
Inductive Effect :=
| PutTextAlert
| FirebasePush (eyes_detected : nat) (total_alerts : nat)
| AudioMarkup.

(** The sidebar settings and the Firebase switch, fixed for one run of
    the script. *)
Record Settings := mkSettings {
  sensitivity : Q;
  enable_sound : bool;
  FIREBASE_ENABLED : bool
}.

(** What the detector hands to the drowsiness logic for one frame, with
    the value [time.time()] has in that iteration. *)
Record Observation := mkObs {
  drowsy : bool;
  eyes_detected : nat;
  now : Q
}.

Definition Qgtb (a b : Q) : bool := negb (Qle_bool a b).

(** Lines 236-276. *)
Definition drowsiness_logic (cfg : Settings) (o : Observation)
           (s : SessionState) : SessionState * Status * list Effect :=
  if drowsy o then
    match closed_start s with
    | None =>
        (mkState (Some (now o)) (alarm_on s) (total_alerts s) (play_alarm s),
         SAFE, [])
    | Some t0 =>
        if Qgtb (now o - t0) (sensitivity cfg) then
          if negb (alarm_on s) then
            (mkState (closed_start s) true (S (total_alerts s)) true,
             ALERT,
             PutTextAlert ::
             (if FIREBASE_ENABLED cfg
              then [FirebasePush (eyes_detected o) (S (total_alerts s))]
              else []))
          else (s, ALERT, [PutTextAlert])
        else (s, SAFE, [])
    end
  else
    (mkState None false (total_alerts s) false, SAFE, []).

(** Lines 278-284: the audio element is written when [play_alarm] is set
    and the sound is enabled. *)
Definition play_alarm_sound (cfg : Settings) (s : SessionState) : list Effect :=
  if play_alarm s && enable_sound cfg then [AudioMarkup] else [].

(** What the dashboard shows for the frame (lines 291-298). *)
Record FrameOutput := mkOut {
  current_status : Status;
  alert_count_metric : nat;
  eyes_status_metric : nat;
  effects : list Effect
}.

(** The part of one iteration after the detection. *)
Definition frame_update (cfg : Settings) (o : Observation) (s : SessionState)
  : SessionState * FrameOutput :=
  let '(s', status, eff) := drowsiness_logic cfg o s in
  (s', mkOut status (total_alerts s') (eyes_detected o)
             (eff ++ play_alarm_sound cfg s')).

Definition step (cfg : Settings) (s : SessionState) (o : Observation)
  : SessionState :=
  fst (frame_update cfg o s).

(** The state after a sequence of frames. *)
Definition run (cfg : Settings) (obs : list Observation) (s : SessionState)
  : SessionState :=
  fold_left (step cfg) obs s.

(** The effects of a sequence of frames, frame by frame. *)
Fixpoint run_effects (cfg : Settings) (obs : list Observation)
         (s : SessionState) : list (list Effect) :=
  match obs with
  | [] => []
  | o :: rest =>
      let (s', out) := frame_update cfg o s in
      effects out :: run_effects cfg rest s'
  end.

Definition is_audio (e : Effect) : bool :=
  match e with AudioMarkup => true | _ => false end.

Definition is_push (e : Effect) : bool :=
  match e with FirebasePush _ _ => true | _ => false end.

Definition count_effect (p : Effect -> bool) (l : list (list Effect)) : nat :=
  length (filter p (concat l)).

(* ================================================================= *)
(** ** Episodes, as the specification words them *)

(** [eyes_open_this_frame] is the negation of the loop's [drowsy]. *)
Definition eyes_open_this_frame (o : Observation) : bool := negb (drowsy o).

Definition flush (cur : list Q) : list (list Q) :=
  match cur with [] => [] | _ => [cur] end.

(** The maximal contiguous runs of eyes-closed frames, each as the list of
    its timestamps; [cur] is the run in progress. *)
Fixpoint closed_runs_from (cur : list Q) (obs : list Observation)
  : list (list Q) :=
  match obs with
  | [] => flush cur
  | o :: rest =>
      if eyes_open_this_frame o
      then flush cur ++ closed_runs_from [] rest
      else closed_runs_from (cur ++ [now o]) rest
  end.

Definition closed_runs (obs : list Observation) : list (list Q) :=
  closed_runs_from [] obs.

(** The elapsed time of a run: from its first frame to its last. *)
Definition elapsed (r : list Q) : Q := last r 0 - hd 0 r.

Definition exceeds (threshold : Q) (r : list Q) : bool :=
  Qgtb (elapsed r) threshold.

(** The number of episodes whose elapsed time exceeds the threshold. *)
Definition alerting_runs (threshold : Q) (obs : list Observation) : nat :=
  length (filter (exceeds threshold) (closed_runs obs)).

(** A run is past the threshold when one of its frames comes more than
    the threshold after its first frame. Under a clock that does not step
    back this is [exceeds]. *)
Definition past_threshold (threshold : Q) (r : list Q) : bool :=
  existsb (fun t => Qgtb (t - hd 0 r) threshold) r.

Definition runs_past_threshold (threshold : Q) (obs : list Observation) : nat :=
  length (filter (past_threshold threshold) (closed_runs obs)).

(** The three states of the machine. *)
Definition AWAKE (s : SessionState) : Prop :=
  closed_start s = None /\ alarm_on s = false.

Definition EYES_CLOSED_TIMING (s : SessionState) : Prop :=
  closed_start s <> None /\ alarm_on s = false.

Definition ALERTING (s : SessionState) : Prop :=
  closed_start s <> None /\ alarm_on s = true.

(** Eyes-closed frames at the given timestamps, and eyes-open ones. *)
Definition closed_at (t : Q) : Observation := mkObs true 0 t.
Definition open_at (n : nat) (t : Q) : Observation := mkObs false n t.

(* ================================================================= *)
(** ** The polling loop and the camera handle *)

Inductive Message :=
| UnableToOpenCamera
| FailedToReadFromCamera
| ErrorDuringDetection (e : string).

(** What a session does to the camera and to the page, in order. *)
Inductive SessionEvent :=
| VideoCapture (camera_index : nat)
| CapSet
| CapRead
| CapRelease
| DestroyAllWindows
| StError (m : Message)
| StWarning
| StSuccess
| StInfo
| SetDetectionRunning (b : bool)
| Rerun
| Frame (cs : list Call) (out : FrameOutput)
| Fault (cs : list Call).

(** What the environment answers in one iteration: the flag
    [st.session_state.detection_running] read by the loop condition, the
    pair [ret, frame] of [cap.read()] with the frame already converted to
    grayscale, and the clock. *)
Record Iteration := mkIteration {
  detection_running : bool;
  ret : bool;
  gray_frame : Image;
  clock : Q
}.

Definition max_frames : nat := 500.

(** Lines 190-302. [remaining] is [max_frames - frame_count]: the loop
    condition [frame_count < max_frames] is [remaining <> 0]. The result
    carries the exception that left the loop, if one did. *)
Fixpoint detection_loop (cfg : Settings) (inputs : nat -> Iteration)
         (remaining : nat) (frame_count : nat) (s : SessionState)
  : list SessionEvent * SessionState * nat * option string :=
  match remaining with
  | O => ([], s, frame_count, None)
  | S remaining' =>
      let it := inputs frame_count in
      if negb (detection_running it) then ([], s, frame_count, None)
      else if negb (ret it) then
        ([CapRead; StError FailedToReadFromCamera], s, frame_count, None)
      else
        match detect_frame (gray_frame it) with
        | (cs, Raised e) => ([CapRead; Fault cs], s, frame_count, Some e)
        | (cs, Returned (d, n)) =>
            let (s', out) := frame_update cfg (mkObs d n (clock it)) s in
            let '(ev, s'', fc, exn) :=
              detection_loop cfg inputs remaining' (S frame_count) s' in
            (CapRead :: Frame cs out :: ev, s'', fc, exn)
        end
  end.

(** Lines 170-316, the body of [if st.session_state.detection_running];
    [opened] is what [cap.isOpened()] answers after the constructor. The
    handle stays open until it is released. *)
Definition main_detection (cfg : Settings) (inputs : nat -> Iteration)
           (camera_index : nat) (opened : bool) (s : SessionState)
  : list SessionEvent * SessionState :=
  let acquire := [VideoCapture camera_index; CapSet] in
  if negb opened then
    (acquire ++ [StError UnableToOpenCamera; StWarning;
                 SetDetectionRunning false], s)
  else
    let '(ev, s', frame_count, exn) := detection_loop cfg inputs max_frames 0 s in
    let handler :=
      match exn with
      | Some e => [StError (ErrorDuringDetection e)]
      | None => []
      end in
    let release :=
      if opened then [CapRelease; DestroyAllWindows] else [] in
    let restart :=
      if (max_frames <=? frame_count)%nat then [Rerun] else [] in
    (acquire ++ [StSuccess] ++ ev ++ handler ++ release
       ++ [SetDetectionRunning false; StInfo] ++ restart, s').

Definition is_release (e : SessionEvent) : bool :=
  match e with CapRelease => true | _ => false end.

Definition is_read (e : SessionEvent) : bool :=
  match e with CapRead => true | _ => false end.

Definition releases (ev : list SessionEvent) : nat :=
  length (filter is_release ev).

(** A session's events without the per-frame records. *)
Definition without_frames (ev : list SessionEvent) : list SessionEvent :=
  filter (fun e => match e with Frame _ _ | Fault _ => false | _ => true end) ev.

(* ================================================================= *)
(** ** Scripted cascades and frames for the examples *)

Definition has_pixel_above (level : Z) (img : Image) : bool :=
  existsb (existsb (fun p => (level <=? p)%Z)) img.

(** A face on the left half and one on the right half of a 4 x 2 frame;
    an eye wherever a pixel is bright enough, the pass without a size
    bound being content with less; an empty image raises. *)
Definition scripted_cascade (c : Cascade) (img : Image) (p : CascadeParams)
  : Outcome (list Region) :=
  match img with
  | [] => Raised "empty image"%string
  | _ =>
      match c with
      | face_cascade => Returned [mkRegion 0 0 2 2; mkRegion 2 0 2 2]
      | eye_cascade =>
          let level := match maxSize p with Some _ => 200%Z | None => 100%Z end in
          if has_pixel_above level img
          then Returned [mkRegion 0 0 1 1]
          else Returned []
      end
  end.

(** Left face with an eye the strict pass finds, right face without. *)
Definition frame_left_open : Image := [[250; 0; 0; 0]; [0; 0; 0; 0]]%Z.

(** Left face with an eye only the lenient pass finds, right face without. *)
Definition frame_left_faint : Image := [[150; 0; 0; 0]; [0; 0; 0; 0]]%Z.

(** No eye on either face. *)
Definition frame_closed : Image := [[0; 0; 0; 0]; [0; 0; 0; 0]]%Z.

Definition demo_settings : Settings := mkSettings 1.5 true true.

(** Scripted environments for the loop: thirty milliseconds a frame, and
    at the third iteration a read failure, a frame the cascade raises on,
    or the external stop. *)
Definition tick (i : nat) : Q := inject_Z (Z.of_nat i) * 0.03.

Definition steady_inputs (i : nat) : Iteration :=
  mkIteration true true frame_closed (tick i).

Definition read_failure_inputs (i : nat) : Iteration :=
  mkIteration true (negb (i =? 2)%nat) frame_closed (tick i).

Definition fault_inputs (i : nat) : Iteration :=
  mkIteration true true (if (i =? 2)%nat then [] else frame_closed) (tick i).

Definition stopped_inputs (i : nat) : Iteration :=
  mkIteration (i <? 2)%nat true frame_closed (tick i).

(** A session of three episodes under the default threshold of 1.5 s: the
    first and the second exceed it, the third does not. *)
Definition demo_session : list Observation :=
  [closed_at 0; closed_at 1.4; closed_at 1.6; closed_at 2; open_at 2 3;
   closed_at 4; closed_at 6; open_at 1 7; closed_at 8; closed_at 9].

(** The state of the machine against the episode in progress: no timer
    outside an episode; inside one, the timer holds its first timestamp
    and the alert is on exactly when the episode counts, by [counted], as
    one over the threshold. *)
Definition tracks (counted : list Q -> bool) (s : SessionState)
           (cur : list Q) : Prop :=
  match cur with
  | [] => closed_start s = None /\ alarm_on s = false
  | t0 :: _ => closed_start s = Some t0 /\ alarm_on s = counted cur
  end.

(** A clock that does not step back between the frames of a session. *)
Definition monotone_clock (obs : list Observation) : Prop :=
  Sorted Qle (map now obs).

(* ================================================================= *)
(** ** Views of a run and of the loop *)

(** The frames the loop hands to the drowsiness logic, in order: it stops
    at the stop flag, at a failed read, at a detection that raises, and
    at the frame limit. The session state plays no part in it. *)
Fixpoint observed (inputs : nat -> Iteration) (remaining frame_count : nat)
  : list Observation :=
  match remaining with
  | O => []
  | S remaining' =>
      let it := inputs frame_count in
      if negb (detection_running it) then []
      else if negb (ret it) then []
      else
        match outcome (detect_frame (gray_frame it)) with
        | Raised _ => []
        | Returned (d, n) =>
            mkObs d n (clock it) :: observed inputs remaining' (S frame_count)
        end
  end.

(** What an invocation of the eye cascade looks like in a frame: one of
    the two parameter sets, on the region of a face of the frame. *)
Definition eye_call_of (gray : Image) (faces : list Region) (c : Call) : Prop :=
  callee c = eye_cascade /\
  (call_params c = strict_params eye_detection_sensitivity \/
   call_params c = lenient_params eye_detection_sensitivity) /\
  exists f, In f faces /\ call_image c = crop gray f.

(** The four components of what the loop returns. *)
Definition loop_events
  (l : list SessionEvent * SessionState * nat * option string)
  : list SessionEvent := fst (fst (fst l)).

Definition loop_state
  (l : list SessionEvent * SessionState * nat * option string)
  : SessionState := snd (fst (fst l)).

Definition loop_frame_count
  (l : list SessionEvent * SessionState * nat * option string)
  : nat := snd (fst l).

Definition loop_exception
  (l : list SessionEvent * SessionState * nat * option string)
  : option string := snd l.

(** The dashboard output of the frames of a session, in order. *)
Definition frame_outputs (ev : list SessionEvent) : list FrameOutput :=
  flat_map (fun e => match e with Frame _ out => [out] | _ => [] end) ev.

Definition is_rerun (e : SessionEvent) : bool :=
  match e with Rerun => true | _ => false end.

(** The payloads pushed to Firebase: [(eyes_detected, total_alerts)]. *)
Definition pushed (l : list Effect) : list (nat * nat) :=
  flat_map (fun e => match e with FirebasePush n t => [(n, t)] | _ => [] end) l.

(** The per-frame update along a history in which every frame comes with
    the settings of the script run that processed it: the sidebar is read
    anew in every run (line 124) while the session state persists. *)
Definition run_with (frames : list (Settings * Observation))
           (s : SessionState) : SessionState :=
  fold_left (fun s f => step (fst f) s (snd f)) frames s.

(** A history whose clock does not step back. *)
Definition monotone_history (frames : list (Settings * Observation)) : Prop :=
  Sorted Qle (map (fun f => now (snd f)) frames).

(** The threshold [cfg] has is not above the threshold any of the frames
    was processed with: the threshold was not raised on the way to
    [cfg]. *)
Definition threshold_not_raised (cfg : Settings)
           (frames : list (Settings * Observation)) : Prop :=
  Forall (fun f => sensitivity cfg <= sensitivity (fst f)) frames.

(** The timestamps of the eyes-closed frames since the last eyes-open
    frame: the episode in progress. *)
Definition current_run (obs : list Observation) : list Q :=
  fold_left (fun cur o => if eyes_open_this_frame o then [] else cur ++ [now o])
            obs [].

(* ================================================================= *)
(** ** One run of the script *)

(** [st.session_state] between two runs of the script: a key is absent
    until a run has set it. *)
Record StSessionState := mkSession {
  key_closed_start : option (option Q);
  key_alarm_on : option bool;
  key_total_alerts : option nat;
  key_play_alarm : option bool;
  key_detection_running : option bool
}.

Definition empty_session : StSessionState :=
  mkSession None None None None None.

(** The session state once lines 111-120 have run: every key has a
    value. *)
Record Session := mkLive {
  drowsiness : SessionState;
  running : bool
}.

Definition key_or {A} (default : A) (key : option A) : A :=
  match key with Some v => v | None => default end.

(** Session state initialization (lines 111-120): a key that is not in
    the session state gets its default, the others keep their value. *)
Definition session_state_init (r : StSessionState) : Session :=
  mkLive (mkState (key_or None (key_closed_start r))
                  (key_or false (key_alarm_on r))
                  (key_or 0%nat (key_total_alerts r))
                  (key_or false (key_play_alarm r)))
         (key_or false (key_detection_running r)).

(** What a run leaves in [st.session_state]. *)
Definition store (ss : Session) : StSessionState :=
  mkSession (Some (closed_start (drowsiness ss)))
            (Some (alarm_on (drowsiness ss)))
            (Some (total_alerts (drowsiness ss)))
            (Some (play_alarm (drowsiness ss)))
            (Some (running ss)).

(** What one run of the script gets from the page and from the machine:
    the sidebar widgets, what the three buttons return, the Firebase
    switch, whether the camera opens, and what the loop is answered. *)
Record Page := mkPage {
  sensitivity_slider : Q;
  camera_index_select : nat;
  enable_sound_checkbox : bool;
  start_btn : bool;
  stop_btn : bool;
  reset_btn : bool;
  firebase_enabled : bool;
  cap_isOpened : bool;
  loop_inputs : nat -> Iteration
}.

Definition settings_of (p : Page) : Settings :=
  mkSettings (sensitivity_slider p) (enable_sound_checkbox p) (firebase_enabled p).

(** The value of [detection_running] after the assignments a session
    made to it. *)
Definition final_running (ev : list SessionEvent) (before : bool) : bool :=
  fold_left (fun b e => match e with SetDetectionRunning b' => b' | _ => b end)
            ev before.

(** Lines 110-316 for one run: the initialization, the three buttons in
    the order the script tests them, each ending the run with
    [st.rerun()], and the detection when [detection_running] is set. The
    result is the session state the run leaves, what it did, and whether
    it ended by asking for a rerun. *)
Definition script_run (p : Page) (r : StSessionState)
  : StSessionState * list SessionEvent * bool :=
  let ss := session_state_init r in
  if reset_btn p then
    (store (mkLive (drowsiness ss) false), [SetDetectionRunning false; Rerun], true)
  else if start_btn p then
    (store (mkLive (drowsiness ss) true), [SetDetectionRunning true; Rerun], true)
  else if stop_btn p then
    (store (mkLive (drowsiness ss) false), [SetDetectionRunning false; Rerun], true)
  else if running ss then
    let (ev, s') :=
      main_detection (settings_of p) (loop_inputs p) (camera_index_select p)
                     (cap_isOpened p) (drowsiness ss) in
    (store (mkLive s' (final_running ev (running ss))), ev, existsb is_rerun ev)
  else (store ss, [], false).

(** Successive runs of the script, each on what the one before left. *)
Definition script_runs (ps : list Page) (r : StSessionState) : StSessionState :=
  fold_left (fun r p => fst (fst (script_run p r))) ps r.

(** The frames a run of the script hands to the drowsiness logic, each
    with the settings of that run: none when a button is pressed, when
    [detection_running] is not set or when the camera does not open. *)
Definition frames_of_run (p : Page) (r : StSessionState)
  : list (Settings * Observation) :=
  if reset_btn p || start_btn p || stop_btn p then []
  else if running (session_state_init r) && cap_isOpened p
       then map (pair (settings_of p)) (observed (loop_inputs p) max_frames 0)
       else [].

(** The frames of successive runs of the script, in order. *)
Fixpoint script_history (ps : list Page) (r : StSessionState)
  : list (Settings * Observation) :=
  match ps with
  | [] => []
  | p :: rest =>
      frames_of_run p r ++ script_history rest (fst (fst (script_run p r)))
  end.

(** Pages for the examples: nothing pressed, and each of the buttons. *)
Definition idle_page (inputs : nat -> Iteration) : Page :=
  mkPage 1.5 0 true false false false true true inputs.

Definition start_page : Page :=
  mkPage 1.5 0 true true false false true true steady_inputs.

Definition stop_page : Page :=
  mkPage 1.5 0 true false true false true true steady_inputs.

Definition reset_page : Page :=
  mkPage 1.5 0 true false false true true true steady_inputs.

(** Two sessions around a move of the threshold slider: eyes closed at
    0 s and 1 s under a threshold of 0.5 s, then, the slider at 5 s, eyes
    still closed at 3 s. *)
Definition closed_at_0_and_1 (i : nat) : Iteration :=
  mkIteration (i <? 2)%nat true frame_closed (inject_Z (Z.of_nat i)).

Definition closed_at_3 (i : nat) : Iteration :=
  mkIteration (i <? 1)%nat true frame_closed 3.

Definition low_threshold_page : Page :=
  mkPage 0.5 0 true false false false true true closed_at_0_and_1.

Definition high_threshold_page : Page :=
  mkPage 5 0 true false false false true true closed_at_3.

Definition slider_session : list Page :=
  [start_page; low_threshold_page; start_page; high_threshold_page].

(** A later session: eyes closed from its first frame, a hundred seconds
    after the sessions above. *)
Definition resumed_inputs (i : nat) : Iteration :=
  mkIteration (i <? 2)%nat true frame_closed (100 + tick i).

(* ================================================================= *)
(** * Properties *)

(* ================================================================= *)
(** ** The comparison and one step of the logic *)

Lemma Qgtb_true (a b : Q) : Qgtb a b = true <-> b < a.
Proof.
  unfold Qgtb. rewrite negb_true_iff. split; intro H.
  - apply Qnot_le_lt. intro Hle. apply Qle_bool_iff in Hle. congruence.
  - destruct (Qle_bool a b) eqn:E; [|reflexivity].
    apply Qle_bool_iff in E. lra.
Qed.

Lemma Qgtb_false (a b : Q) : Qgtb a b = false <-> a <= b.
Proof.
  unfold Qgtb. rewrite negb_false_iff. apply Qle_bool_iff.
Qed.

Lemma step_logic cfg s o :
  step cfg s o = fst (fst (drowsiness_logic cfg o s)).
Proof.
  unfold step, frame_update.
  destruct (drowsiness_logic cfg o s) as [[s' st] eff]. reflexivity.
Qed.

Lemma step_open cfg s o :
  drowsy o = false ->
  step cfg s o = mkState None false (total_alerts s) false.
Proof.
  intro H. rewrite step_logic. unfold drowsiness_logic. rewrite H. reflexivity.
Qed.

Lemma step_start cfg s o :
  drowsy o = true -> closed_start s = None ->
  step cfg s o =
  mkState (Some (now o)) (alarm_on s) (total_alerts s) (play_alarm s).
Proof.
  intros H1 H2. rewrite step_logic. unfold drowsiness_logic.
  rewrite H1, H2. reflexivity.
Qed.

Lemma step_fire cfg s o t0 :
  drowsy o = true -> closed_start s = Some t0 ->
  sensitivity cfg < now o - t0 -> alarm_on s = false ->
  step cfg s o = mkState (Some t0) true (S (total_alerts s)) true.
Proof.
  intros H1 H2 H3 H4. rewrite step_logic. unfold drowsiness_logic.
  apply Qgtb_true in H3. rewrite H1, H2, H3, H4. simpl. reflexivity.
Qed.

Lemma step_wait cfg s o t0 :
  drowsy o = true -> closed_start s = Some t0 ->
  now o - t0 <= sensitivity cfg ->
  step cfg s o = s.
Proof.
  intros H1 H2 H3. rewrite step_logic. unfold drowsiness_logic.
  apply Qgtb_false in H3. rewrite H1, H2, H3. reflexivity.
Qed.

Lemma step_hold cfg s o t0 :
  drowsy o = true -> closed_start s = Some t0 -> alarm_on s = true ->
  step cfg s o = s.
Proof.
  intros H1 H2 H3. rewrite step_logic. unfold drowsiness_logic.
  rewrite H1, H2, H3. simpl.
  destruct (Qgtb (now o - t0) (sensitivity cfg)); reflexivity.
Qed.

Lemma run_cons cfg o obs s :
  run cfg (o :: obs) s = run cfg obs (step cfg s o).
Proof. reflexivity. Qed.

Lemma run_app cfg obs1 obs2 s :
  run cfg (obs1 ++ obs2) s = run cfg obs2 (run cfg obs1 s).
Proof. unfold run. apply fold_left_app. Qed.

(** The counter never decreases in a step, and grows by at most one. *)
Lemma step_total_alerts cfg s o :
  (total_alerts s <= total_alerts (step cfg s o) <= S (total_alerts s))%nat.
Proof.
  rewrite step_logic. unfold drowsiness_logic.
  destruct (drowsy o); [|simpl; lia].
  destruct (closed_start s); [|simpl; lia].
  destruct (Qgtb _ _); [|simpl; lia].
  destruct (alarm_on s); simpl; lia.
Qed.

Lemma run_total_alerts_le cfg obs s :
  (total_alerts s <= total_alerts (run cfg obs s))%nat.
Proof.
  revert s. induction obs as [|o obs IH]; intro s; [apply Nat.le_refl|].
  rewrite run_cons. pose proof (step_total_alerts cfg s o).
  specialize (IH (step cfg s o)). lia.
Qed.

(** Frames with the eyes closed, once the alert is on, change nothing. *)
Lemma run_closed_alerting cfg obs s t0 :
  Forall (fun o => drowsy o = true) obs ->
  closed_start s = Some t0 -> alarm_on s = true ->
  run cfg obs s = s.
Proof.
  intros Hall Hc Ha. induction Hall as [|o obs Ho _ IH]; [reflexivity|].
  rewrite run_cons, (step_hold cfg s o t0 Ho Hc Ha). exact IH.
Qed.

(** Within one episode the counter grows by at most one. *)
Lemma run_closed_at_most_one cfg obs s :
  Forall (fun o => drowsy o = true) obs ->
  (total_alerts (run cfg obs s) <= S (total_alerts s))%nat.
Proof.
  intro Hall. revert s.
  induction Hall as [|o obs Ho Hall IH]; intro s; [simpl; lia|].
  rewrite run_cons.
  destruct (closed_start s) as [t0|] eqn:Hc.
  - destruct (alarm_on s) eqn:Ha.
    + rewrite (step_hold cfg s o t0 Ho Hc Ha). apply IH.
    + destruct (Qlt_le_dec (sensitivity cfg) (now o - t0)) as [Hgt|Hle].
      * rewrite (step_fire cfg s o t0 Ho Hc Hgt Ha).
        rewrite (@run_closed_alerting cfg obs
                   (mkState (Some t0) true (S (total_alerts s)) true) t0
                   Hall eq_refl eq_refl).
        simpl. lia.
      * rewrite (step_wait cfg s o t0 Ho Hc Hle). apply IH.
  - rewrite (step_start cfg s o Ho Hc).
    specialize (IH (mkState (Some (now o)) (alarm_on s) (total_alerts s)
                            (play_alarm s))).
    simpl in IH. exact IH.
Qed.

(* ================================================================= *)
(** ** Episodes and the counter *)

Lemma Forall_last {A} (P : A -> Prop) (l : list A) (d : A) :
  l <> [] -> Forall P l -> P (last l d).
Proof.
  induction l as [|a l IH]; intros Hne Hall; [congruence|].
  inversion Hall as [|? ? Ha Hl]; subst.
  destruct l as [|b l]; [exact Ha|].
  change (P (last (b :: l) d)). apply IH; [discriminate|exact Hl].
Qed.

Lemma StronglySorted_app_inv (l1 l2 : list Q) :
  StronglySorted Qle (l1 ++ l2) ->
  StronglySorted Qle l2 /\
  forall b, In b l2 -> Forall (fun x => x <= b) l1.
Proof.
  induction l1 as [|a l1 IH]; simpl; intro H.
  - split; [exact H|]. intros; constructor.
  - apply StronglySorted_inv in H. destruct H as [Hs Hall].
    destruct (IH Hs) as [H2 Hle]. split; [exact H2|].
    intros b Hb. constructor; [|apply Hle; exact Hb].
    rewrite Forall_forall in Hall. apply Hall.
    apply in_or_app. right. exact Hb.
Qed.

Lemma exceeds_snoc thr t0 c t :
  exceeds thr ((t0 :: c) ++ [t]) = Qgtb (t - t0) thr.
Proof.
  unfold exceeds, elapsed.
  change (hd 0 ((t0 :: c) ++ [t])) with t0.
  rewrite last_last. reflexivity.
Qed.

Lemma exceeds_single thr t : 0 <= thr -> exceeds thr [t] = false.
Proof.
  intro H. unfold exceeds, elapsed. simpl. apply Qgtb_false. lra.
Qed.

Lemma count_flush counted s cur :
  tracks counted s cur ->
  length (filter counted (flush cur)) = if alarm_on s then 1%nat else 0%nat.
Proof.
  destruct cur as [|t0 c]; simpl.
  - intros [_ Ha]. rewrite Ha. reflexivity.
  - intros [_ Ha]. rewrite Ha.
    destruct (counted (t0 :: c)); reflexivity.
Qed.

Lemma past_threshold_snoc thr t0 c t :
  past_threshold thr ((t0 :: c) ++ [t])
  = past_threshold thr (t0 :: c) || Qgtb (t - t0) thr.
Proof.
  unfold past_threshold.
  change (hd 0 ((t0 :: c) ++ [t])) with t0. change (hd 0 (t0 :: c)) with t0.
  rewrite existsb_app. simpl. rewrite orb_false_r. reflexivity.
Qed.

Lemma past_threshold_single thr t : 0 <= thr -> past_threshold thr [t] = false.
Proof.
  intro H. unfold past_threshold. simpl. rewrite orb_false_r.
  apply Qgtb_false. lra.
Qed.

(** The counter against the episodes, from any point of a session and
    whatever the clock does. *)
Lemma run_counts_any_clock cfg obs :
  0 <= sensitivity cfg ->
  forall s cur,
    tracks (past_threshold (sensitivity cfg)) s cur ->
    (total_alerts (run cfg obs s) + (if alarm_on s then 1 else 0)
     = total_alerts s
       + length (filter (past_threshold (sensitivity cfg))
                        (closed_runs_from cur obs)))%nat.
Proof.
  intro Hthr. induction obs as [|o rest IH]; intros s cur Htr.
  - simpl. rewrite (count_flush _ _ _ Htr). lia.
  - rewrite run_cons.
    change (closed_runs_from cur (o :: rest))
      with (if eyes_open_this_frame o
            then flush cur ++ closed_runs_from [] rest
            else closed_runs_from (cur ++ [now o]) rest).
    unfold eyes_open_this_frame.
    destruct (drowsy o) eqn:Hd; cbn [negb].
    + destruct cur as [|t0 c]; destruct Htr as [Hc Ha].
      * rewrite (step_start cfg s o Hd Hc).
        assert (Htr' : tracks (past_threshold (sensitivity cfg))
                         (mkState (Some (now o)) (alarm_on s) (total_alerts s)
                                  (play_alarm s)) ([] ++ [now o])).
        { simpl. split; [reflexivity|].
          rewrite Ha. symmetry. apply past_threshold_single. exact Hthr. }
        pose proof (IH _ _ Htr') as E.
        cbn [total_alerts alarm_on] in E. exact E.
      * pose proof (past_threshold_snoc (sensitivity cfg) t0 c (now o)) as Hsn.
        destruct (alarm_on s) eqn:Hal.
        -- rewrite (step_hold cfg s o t0 Hd Hc Hal).
           assert (Htr' : tracks (past_threshold (sensitivity cfg)) s
                            ((t0 :: c) ++ [now o])).
           { simpl. split; [exact Hc|].
             rewrite Hal. simpl in Hsn. rewrite Hsn, <- Ha. reflexivity. }
           pose proof (IH _ _ Htr') as E. rewrite Hal in E. exact E.
        -- rewrite <- Ha in Hsn. simpl orb in Hsn.
           destruct (Qlt_le_dec (sensitivity cfg) (now o - t0)) as [Hgt|Hle].
           ++ rewrite (step_fire cfg s o t0 Hd Hc Hgt Hal).
              assert (Htr' : tracks (past_threshold (sensitivity cfg))
                               (mkState (Some t0) true (S (total_alerts s)) true)
                               ((t0 :: c) ++ [now o])).
              { simpl. split; [reflexivity|]. simpl in Hsn. rewrite Hsn.
                symmetry. apply Qgtb_true. exact Hgt. }
              pose proof (IH _ _ Htr') as E.
              cbn [total_alerts alarm_on] in E. lia.
           ++ rewrite (step_wait cfg s o t0 Hd Hc Hle).
              assert (Htr' : tracks (past_threshold (sensitivity cfg)) s
                               ((t0 :: c) ++ [now o])).
              { simpl. split; [exact Hc|]. simpl in Hsn. rewrite Hsn, Hal.
                symmetry. apply Qgtb_false. exact Hle. }
              pose proof (IH _ _ Htr') as E. rewrite Hal in E. exact E.
    + rewrite (step_open cfg s o Hd).
      rewrite filter_app, length_app, (count_flush _ _ _ Htr).
      assert (Htr' : tracks (past_threshold (sensitivity cfg))
                       (mkState None false (total_alerts s) false) [])
        by (simpl; auto).
      pose proof (IH _ _ Htr') as E.
      cbn [total_alerts alarm_on] in E. lia.
Qed.

(** The counter against the episodes, from any point of a session. *)
Lemma run_counts_from cfg obs :
  0 <= sensitivity cfg ->
  forall s cur,
    tracks (exceeds (sensitivity cfg)) s cur ->
    StronglySorted Qle (cur ++ map now obs) ->
    (total_alerts (run cfg obs s) + (if alarm_on s then 1 else 0)
     = total_alerts s
       + length (filter (exceeds (sensitivity cfg)) (closed_runs_from cur obs)))%nat.
Proof.
  intro Hthr. induction obs as [|o rest IH]; intros s cur Htr Hs.
  - simpl. rewrite (count_flush _ _ _ Htr). lia.
  - rewrite run_cons.
    change (closed_runs_from cur (o :: rest))
      with (if eyes_open_this_frame o
            then flush cur ++ closed_runs_from [] rest
            else closed_runs_from (cur ++ [now o]) rest).
    unfold eyes_open_this_frame.
    change (map now (o :: rest)) with (now o :: map now rest) in Hs.
    destruct (drowsy o) eqn:Hd; cbn [negb].
    + (* eyes closed: the episode goes on, or starts *)
      assert (Hs' : StronglySorted Qle ((cur ++ [now o]) ++ map now rest))
        by (rewrite <- app_assoc; exact Hs).
      destruct cur as [|t0 c].
      * destruct Htr as [Hc Ha].
        rewrite (step_start cfg s o Hd Hc).
        assert (Htr' : tracks (exceeds (sensitivity cfg))
                         (mkState (Some (now o)) (alarm_on s) (total_alerts s)
                                  (play_alarm s)) ([] ++ [now o])).
        { simpl. split; [reflexivity|].
          rewrite Ha. symmetry. apply exceeds_single. exact Hthr. }
        pose proof (IH _ _ Htr' Hs') as E.
        cbn [total_alerts alarm_on] in E. exact E.
      * destruct Htr as [Hc Ha].
        destruct (Qlt_le_dec (sensitivity cfg) (now o - t0)) as [Hgt|Hle].
        -- assert (Hex : exceeds (sensitivity cfg) ((t0 :: c) ++ [now o]) = true)
             by (rewrite exceeds_snoc; apply Qgtb_true; exact Hgt).
           destruct (alarm_on s) eqn:Hal.
           ++ rewrite (step_hold cfg s o t0 Hd Hc Hal).
              assert (Htr' : tracks (exceeds (sensitivity cfg)) s ((t0 :: c) ++ [now o])).
              { simpl. split; [exact Hc|]. rewrite Hal. symmetry. exact Hex. }
              pose proof (IH _ _ Htr' Hs') as E. rewrite Hal in E. exact E.
           ++ rewrite (step_fire cfg s o t0 Hd Hc Hgt Hal).
              assert (Htr' : tracks (exceeds (sensitivity cfg))
                               (mkState (Some t0) true (S (total_alerts s)) true)
                               ((t0 :: c) ++ [now o])).
              { simpl. split; [reflexivity|]. symmetry. exact Hex. }
              pose proof (IH _ _ Htr' Hs') as E.
              cbn [total_alerts alarm_on] in E. lia.
        -- assert (Hex : exceeds (sensitivity cfg) ((t0 :: c) ++ [now o]) = false)
             by (rewrite exceeds_snoc; apply Qgtb_false; exact Hle).
           assert (Hal : alarm_on s = false).
           { rewrite Ha. unfold exceeds, elapsed. simpl hd. apply Qgtb_false.
             destruct (StronglySorted_app_inv _ _ Hs) as [_ Hbefore].
             specialize (Hbefore (now o) (or_introl eq_refl)).
             assert (Hl : last (t0 :: c) 0 <= now o)
               by (apply Forall_last; [discriminate|exact Hbefore]).
             lra. }
           rewrite (step_wait cfg s o t0 Hd Hc Hle).
           assert (Htr' : tracks (exceeds (sensitivity cfg)) s ((t0 :: c) ++ [now o])).
           { simpl. split; [exact Hc|]. rewrite Hal. symmetry. exact Hex. }
           pose proof (IH _ _ Htr' Hs') as E. rewrite Hal in E |- *. exact E.
    + (* eyes open: the episode, if any, is over *)
      rewrite (step_open cfg s o Hd).
      rewrite filter_app, length_app, (count_flush _ _ _ Htr).
      destruct (StronglySorted_app_inv _ _ Hs) as [Hs2 _].
      apply StronglySorted_inv in Hs2. destruct Hs2 as [Hs2 _].
      assert (Htr' : tracks (exceeds (sensitivity cfg))
                       (mkState None false (total_alerts s) false) [])
        by (simpl; auto).
      pose proof (IH _ _ Htr' Hs2) as E.
      cbn [total_alerts alarm_on] in E. lia.
Qed.

Lemma Qle_Transitive : Relation_Definitions.transitive Q Qle.
Proof. intros x y z. apply Qle_trans. Qed.

Lemma monotone_clock_strong obs :
  monotone_clock obs -> StronglySorted Qle (map now obs).
Proof. apply Sorted_StronglySorted. exact Qle_Transitive. Qed.

Lemma step_alarm_on_keeps_count cfg s o :
  alarm_on s = true -> total_alerts (step cfg s o) = total_alerts s.
Proof.
  intro Ha. rewrite step_logic. unfold drowsiness_logic.
  destruct (drowsy o); [|reflexivity].
  destruct (closed_start s); [|reflexivity].
  destruct (Qgtb _ _); [|reflexivity].
  rewrite Ha. reflexivity.
Qed.

(** C1. For every sequence of per-frame eyes-open booleans with
    timestamps, starting in AWAKE and with a threshold that is not
    negative, [total_alerts] grows by exactly the number of maximal runs
    of eyes-closed frames that exceed the threshold, a run exceeding it
    when one of its frames comes more than the threshold after its first
    frame (runs that never do add nothing); when the clock does not step
    back these are the runs whose elapsed time, first frame to last,
    exceeds the threshold. Over the session the counter never decreases,
    and a frame adds at most one; within one episode it grows by at most
    one; and a frame that finds the alert on adds nothing. *)
Theorem total_alerts_counts_episodes cfg obs s :
  0 <= sensitivity cfg -> AWAKE s ->
  total_alerts (run cfg obs s)
  = (total_alerts s + runs_past_threshold (sensitivity cfg) obs)%nat
  /\ (monotone_clock obs ->
      runs_past_threshold (sensitivity cfg) obs
      = alerting_runs (sensitivity cfg) obs)
  /\ (forall pre post, obs = pre ++ post ->
        (total_alerts (run cfg pre s) <= total_alerts (run cfg obs s))%nat)
  /\ (forall pre o post, obs = pre ++ o :: post ->
        (total_alerts (run cfg pre s) <= total_alerts (run cfg (pre ++ [o]) s)
         <= S (total_alerts (run cfg pre s)))%nat)
  /\ (forall pre ep post, obs = pre ++ ep ++ post ->
        Forall (fun o => drowsy o = true) ep ->
        (total_alerts (run cfg (pre ++ ep) s)
         <= S (total_alerts (run cfg pre s)))%nat)
  /\ (forall pre o post, obs = pre ++ o :: post ->
        alarm_on (run cfg pre s) = true ->
        total_alerts (run cfg (pre ++ [o]) s) = total_alerts (run cfg pre s)).
Proof.
  intros Hthr [Hc Ha].
  assert (Hany : total_alerts (run cfg obs s)
                 = (total_alerts s + runs_past_threshold (sensitivity cfg) obs)%nat).
  { pose proof (run_counts_any_clock cfg obs Hthr s []) as E.
    simpl in E. rewrite Ha in E. unfold runs_past_threshold, closed_runs.
    rewrite <- E; [lia|auto]. }
  split; [exact Hany|]. split; [|split; [|split; [|split]]].
  - intro Hmono.
    pose proof (run_counts_from cfg obs Hthr s []) as E.
    simpl in E. rewrite Ha in E.
    specialize (E (conj Hc eq_refl) (monotone_clock_strong obs Hmono)).
    unfold alerting_runs, closed_runs. lia.
  - intros pre post ->. rewrite run_app. apply run_total_alerts_le.
  - intros pre o post _. rewrite run_app. simpl. apply step_total_alerts.
  - intros pre ep post _ Hep. rewrite run_app.
    apply run_closed_at_most_one. exact Hep.
  - intros pre o post _ Hal. rewrite run_app. simpl.
    apply step_alarm_on_keeps_count. exact Hal.
Qed.

Lemma total_alerts_counts_episodes_witness :
  0 <= sensitivity demo_settings /\ AWAKE initial_state /\
  total_alerts (run demo_settings demo_session initial_state) = 2%nat /\
  runs_past_threshold (sensitivity demo_settings) demo_session
  = alerting_runs (sensitivity demo_settings) demo_session.
Proof.
  assert (H0 : 0 <= sensitivity demo_settings) by (simpl; lra).
  assert (H1 : AWAKE initial_state) by (split; reflexivity).
  assert (H2 : monotone_clock demo_session).
  { unfold monotone_clock, demo_session. simpl.
    repeat (constructor; try (simpl; lra)). }
  split; [exact H0|]. split; [exact H1|].
  destruct (total_alerts_counts_episodes demo_settings demo_session
              initial_state H0 H1) as [Hcount [Hsame _]].
  split; [rewrite Hcount; reflexivity|exact (Hsame H2)].
Defined.

(* ================================================================= *)
(** ** The alert and the timer *)

(** The alert is never on without a timer, whatever the clock does. *)
Lemma step_alarm_has_timer cfg s o :
  (alarm_on s = true -> closed_start s <> None) ->
  alarm_on (step cfg s o) = true -> closed_start (step cfg s o) <> None.
Proof.
  intro Inv. rewrite step_logic. unfold drowsiness_logic.
  destruct (drowsy o); [|simpl; discriminate].
  destruct (closed_start s) eqn:Hc; [|simpl; discriminate].
  destruct (Qgtb _ _); [|simpl; rewrite Hc; discriminate].
  destruct (alarm_on s); simpl; try rewrite Hc; discriminate.
Qed.

Lemma run_alarm_has_timer cfg obs s :
  (alarm_on s = true -> closed_start s <> None) ->
  alarm_on (run cfg obs s) = true -> closed_start (run cfg obs s) <> None.
Proof.
  revert s. induction obs as [|o obs IH]; intros s Inv; [exact Inv|].
  rewrite run_cons. apply IH. apply step_alarm_has_timer. exact Inv.
Qed.

Lemma run_with_app frames1 frames2 s :
  run_with (frames1 ++ frames2) s = run_with frames2 (run_with frames1 s).
Proof. unfold run_with. apply fold_left_app. Qed.

Lemma run_with_map cfg obs s :
  run_with (map (pair cfg) obs) s = run cfg obs s.
Proof.
  revert s. induction obs as [|o obs IH]; intro s; [reflexivity|].
  simpl. apply IH.
Qed.

Lemma run_with_alarm_has_timer frames : forall s,
  (alarm_on s = true -> closed_start s <> None) ->
  alarm_on (run_with frames s) = true ->
  closed_start (run_with frames s) <> None.
Proof.
  induction frames as [|[cfg o] frames IH]; intros s Inv; [exact Inv|].
  simpl. apply IH. apply step_alarm_has_timer. exact Inv.
Qed.

(** Whatever the clock and the slider do, an alert that is on was fired
    by a frame of the history that came more than the threshold of its
    run after [closed_start]. *)
Lemma step_alarm_was_fired cfg s o (seen : list (Settings * Observation)) :
  (alarm_on s = true ->
   exists t0, closed_start s = Some t0 /\
              exists f, In f seen /\ sensitivity (fst f) < now (snd f) - t0) ->
  alarm_on (step cfg s o) = true ->
  exists t0, closed_start (step cfg s o) = Some t0 /\
             exists f, In f (seen ++ [(cfg, o)])
                       /\ sensitivity (fst f) < now (snd f) - t0.
Proof.
  intro Inv.
  assert (Hkeep : alarm_on s = true ->
            exists t0, closed_start s = Some t0 /\
              exists f, In f (seen ++ [(cfg, o)])
                        /\ sensitivity (fst f) < now (snd f) - t0).
  { intro Hal. destruct (Inv Hal) as [t0 [Hc [f [Hin Hf]]]].
    exists t0. split; [exact Hc|]. exists f. split; [|exact Hf].
    apply in_or_app. left. exact Hin. }
  destruct (drowsy o) eqn:Hd.
  - destruct (closed_start s) as [t0|] eqn:Hc.
    + destruct (alarm_on s) eqn:Hal.
      * rewrite (step_hold cfg s o t0 Hd Hc Hal). rewrite Hc. intros _.
        apply Hkeep. reflexivity.
      * destruct (Qlt_le_dec (sensitivity cfg) (now o - t0)) as [Hgt|Hng].
        -- rewrite (step_fire cfg s o t0 Hd Hc Hgt Hal). intros _.
           exists t0. split; [reflexivity|]. exists (cfg, o).
           split; [|exact Hgt]. apply in_or_app. right. left. reflexivity.
        -- rewrite (step_wait cfg s o t0 Hd Hc Hng). rewrite Hal. discriminate.
    + rewrite (step_start cfg s o Hd Hc). simpl. intro Hal.
      destruct (Hkeep Hal) as [t1 [E _]]. discriminate E.
  - rewrite (step_open cfg s o Hd). simpl. discriminate.
Qed.

Lemma run_with_alarm_was_fired frames :
  alarm_on (run_with frames initial_state) = true ->
  exists t0, closed_start (run_with frames initial_state) = Some t0 /\
             exists f, In f frames /\ sensitivity (fst f) < now (snd f) - t0.
Proof.
  induction frames as [|[cfg o] frames IH] using rev_ind; [simpl; discriminate|].
  rewrite run_with_app. simpl. apply step_alarm_was_fired. exact IH.
Qed.

(** With a clock that has not stepped back and a threshold that was not
    raised, the frame just processed is itself past the threshold. *)
Lemma run_with_alarm_exceeded frames cfg o :
  monotone_history (frames ++ [(cfg, o)]) ->
  threshold_not_raised cfg frames ->
  alarm_on (run_with (frames ++ [(cfg, o)]) initial_state) = true ->
  exists t0,
    closed_start (run_with (frames ++ [(cfg, o)]) initial_state) = Some t0 /\
    sensitivity cfg < now o - t0.
Proof.
  intros Hm Hthr Hal.
  destruct (run_with_alarm_was_fired _ Hal) as [t0 [Hc [f [Hin Hf]]]].
  exists t0. split; [exact Hc|].
  apply in_app_or in Hin. destruct Hin as [Hin|[<-|[]]]; [|exact Hf].
  unfold threshold_not_raised in Hthr. rewrite Forall_forall in Hthr.
  specialize (Hthr f Hin).
  unfold monotone_history in Hm.
  apply Sorted_StronglySorted in Hm; [|exact Qle_Transitive].
  rewrite map_app in Hm. apply StronglySorted_app_inv in Hm.
  destruct Hm as [_ Hbefore].
  specialize (Hbefore (now o) (or_introl eq_refl)).
  rewrite Forall_forall in Hbefore.
  assert (Hle : now (snd f) <= now o).
  { apply Hbefore. apply (in_map (fun f => now (snd f)) frames f). exact Hin. }
  lra.
Qed.




(** Every state of a session is one of the three states of the machine. *)
Lemma reachable_state_cases cfg obs :
  let s := run cfg obs initial_state in
  AWAKE s \/ EYES_CLOSED_TIMING s \/ ALERTING s.
Proof.
  intro s. unfold AWAKE, EYES_CLOSED_TIMING, ALERTING.
  destruct (alarm_on s) eqn:Ha.
  - right. right. split; [|reflexivity].
    apply run_alarm_has_timer; [simpl; discriminate|exact Ha].
  - destruct (closed_start s).
    + right. left. split; [discriminate|reflexivity].
    + left. split; reflexivity.
Qed.

(* ================================================================= *)
(** ** Eyes-open frames: idempotence and recovery *)

(** C9. The update with eyes open in AWAKE leaves [closed_start],
    [alarm_on] and [total_alerts] as they are, for any number of
    eyes-open frames in a row. *)
Theorem awake_open_idempotent cfg s obs :
  AWAKE s -> Forall (fun o => drowsy o = false) obs ->
  closed_start (run cfg obs s) = closed_start s /\
  alarm_on (run cfg obs s) = alarm_on s /\
  total_alerts (run cfg obs s) = total_alerts s.
Proof.
  intros Haw Hall. revert s Haw.
  induction Hall as [|o obs Ho _ IH]; intros s [Hc Ha]; [auto|].
  rewrite run_cons, (step_open cfg s o Ho).
  destruct (IH (mkState None false (total_alerts s) false)) as [E1 [E2 E3]].
  - split; reflexivity.
  - rewrite E1, E2, E3, Hc, Ha. auto.
Qed.

Lemma awake_open_idempotent_witness :
  AWAKE initial_state /\
  Forall (fun o => drowsy o = false) [open_at 2 0; open_at 2 0.03; open_at 1 0.06] /\
  closed_start (run demo_settings [open_at 2 0; open_at 2 0.03; open_at 1 0.06]
                    initial_state) = closed_start initial_state /\
  alarm_on (run demo_settings [open_at 2 0; open_at 2 0.03; open_at 1 0.06]
                initial_state) = alarm_on initial_state /\
  total_alerts (run demo_settings [open_at 2 0; open_at 2 0.03; open_at 1 0.06]
                    initial_state) = total_alerts initial_state.
Proof.
  assert (H1 : AWAKE initial_state) by (split; reflexivity).
  assert (H2 : Forall (fun o => drowsy o = false)
                      [open_at 2 0; open_at 2 0.03; open_at 1 0.06])
    by (repeat constructor).
  split; [exact H1|]. split; [exact H2|].
  exact (awake_open_idempotent demo_settings initial_state _ H1 H2).
Defined.

(** C8. From ALERTING one eyes-open frame gives AWAKE, with [closed_start]
    and the alert cleared and the counter kept; the state it gives does
    not remember the old timer; the next eyes-closed frame starts the
    timer at its own timestamp, and whether the frame after it alerts is
    decided by the time elapsed since that timestamp alone. *)
Theorem recovery_restarts_timer cfg s o t1 t2 :
  ALERTING s -> drowsy o = false ->
  let s1 := step cfg s o in
  AWAKE s1 /\ total_alerts s1 = total_alerts s /\
  s1 = mkState None false (total_alerts s) false /\
  closed_start (step cfg s1 (closed_at t1)) = Some t1 /\
  alarm_on (step cfg s1 (closed_at t1)) = false /\
  alarm_on (run cfg [closed_at t1; closed_at t2] s1)
  = Qgtb (t2 - t1) (sensitivity cfg) /\
  total_alerts (run cfg [closed_at t1; closed_at t2] s1)
  = (total_alerts s + if Qgtb (t2 - t1) (sensitivity cfg) then 1 else 0)%nat.
Proof.
  intros _ Ho s1. subst s1. rewrite (step_open cfg s o Ho).
  split; [split; reflexivity|]. split; [reflexivity|]. split; [reflexivity|].
  split; [reflexivity|]. split; [reflexivity|].
  unfold run. simpl fold_left. rewrite !step_logic.
  unfold drowsiness_logic. simpl.
  destruct (Qgtb (t2 - t1) (sensitivity cfg)); simpl; split; (reflexivity || lia).
Qed.

Lemma recovery_restarts_timer_witness :
  let s := run demo_settings [closed_at 0; closed_at 2] initial_state in
  ALERTING s /\ drowsy (open_at 2 3) = false /\
  AWAKE (step demo_settings s (open_at 2 3)) /\
  alarm_on (run demo_settings [closed_at 4; closed_at 5]
                (step demo_settings s (open_at 2 3))) = false.
Proof.
  intro s.
  assert (H1 : ALERTING s) by (split; [discriminate|reflexivity]).
  assert (H2 : drowsy (open_at 2 3) = false) by reflexivity.
  split; [exact H1|]. split; [exact H2|].
  pose proof (recovery_restarts_timer demo_settings s (open_at 2 3) 4 5 H1 H2)
    as [Haw [_ [_ [_ [_ [Hal _]]]]]].
  split; [exact Haw|]. rewrite Hal. reflexivity.
Defined.

(* ================================================================= *)
(** ** The threshold comparison *)

Lemma run_closed_waiting cfg ts s t0 :
  closed_start s = Some t0 ->
  Forall (fun t => t - t0 <= sensitivity cfg) ts ->
  run cfg (map closed_at ts) s = s.
Proof.
  intros Hc Hall. induction Hall as [|t ts Ht _ IH]; [reflexivity|].
  simpl map. rewrite run_cons.
  rewrite (step_wait cfg s (closed_at t) t0 eq_refl Hc Ht). exact IH.
Qed.

Lemma Forall_closed_at ts :
  Forall (fun o => drowsy o = true) (map closed_at ts).
Proof. induction ts; simpl; constructor; auto. Qed.

(** The first timestamp of a list past the threshold, if there is one. *)
Lemma first_past_threshold thr t0 ts :
  Exists (fun t => thr < t - t0) ts ->
  exists pre t post,
    ts = pre ++ t :: post /\
    Forall (fun t' => t' - t0 <= thr) pre /\ thr < t - t0.
Proof.
  induction ts as [|a ts IH]; intro Hex; [inversion Hex|].
  destruct (Qlt_le_dec thr (a - t0)) as [Hgt|Hle].
  - exists [], a, ts. repeat split; [constructor|exact Hgt].
  - inversion Hex as [? ? Ha|? ? Hts]; subst; [lra|].
    destruct (IH Hts) as [pre [t [post [E [Hpre Ht]]]]].
    exists (a :: pre), t, post. subst ts. repeat split; [|exact Ht].
    constructor; assumption.
Qed.

Lemma last_past_threshold thr t0 ts :
  0 <= thr -> thr < last ts t0 - t0 -> Exists (fun t => thr < t - t0) ts.
Proof.
  intro Hthr. induction ts as [|a ts IH]; simpl.
  - intro H. lra.
  - destruct ts as [|b ts]; intro H.
    + apply Exists_cons_hd. exact H.
    + apply Exists_cons_tl. apply IH. exact H.
Qed.

Lemma sorted_le_last (l : list Q) (d : Q) :
  StronglySorted Qle l -> Forall (fun x => x <= last l d) l.
Proof.
  induction l as [|a l IH]; intro Hs; [constructor|].
  apply StronglySorted_inv in Hs. destruct Hs as [Hs Hall].
  destruct l as [|b l].
  - constructor; [simpl; lra|constructor].
  - change (last (a :: b :: l) d) with (last (b :: l) d).
    specialize (IH Hs). constructor; [|exact IH].
    inversion Hall as [|? ? Hab _]; subst.
    inversion IH as [|? ? Hb _]; subst. lra.
Qed.

(** C7. The comparison is strict and is not made on the frame that sets
    [closed_start]: that frame only starts the timer, whatever the
    threshold; a later eyes-closed frame alerts exactly when its time
    minus [closed_start] is greater than the threshold, and does not when
    it is equal. With a threshold of 1.5 s, an episode whose frames all
    lie within 1.4 s of its first frame, such as one of ordered frames
    that ends 1.4 s after it started, never alerts, and an episode whose
    last frame is 1.6 s after its first alerts exactly once, at the first
    frame past the 1.5 s mark. *)
Theorem threshold_edge_timing cfg n t0 :
  let awake := mkState None false n false in
  let timing := mkState (Some t0) false n false in
  let alerting := mkState (Some t0) true (S n) true in
  step cfg awake (closed_at t0) = timing /\
  (forall t, step cfg timing (closed_at t)
             = if Qgtb (t - t0) (sensitivity cfg) then alerting else timing) /\
  (forall t, t - t0 == sensitivity cfg ->
             step cfg timing (closed_at t) = timing) /\
  (sensitivity cfg == 1.5 ->
   forall ts, Forall (fun t => t - t0 <= 1.4) ts ->
     run cfg (map closed_at (t0 :: ts)) awake = timing) /\
  (sensitivity cfg == 1.5 ->
   forall ts, Sorted Qle (t0 :: ts) -> last ts t0 - t0 == 1.4 ->
     run cfg (map closed_at (t0 :: ts)) awake = timing) /\
  (sensitivity cfg == 1.5 ->
   forall ts, last ts t0 - t0 == 1.6 ->
     exists pre t post,
       ts = pre ++ t :: post /\
       Forall (fun t' => t' - t0 <= 1.5) pre /\ 1.5 < t - t0 /\
       run cfg (map closed_at (t0 :: pre)) awake = timing /\
       run cfg (map closed_at (t0 :: pre ++ [t])) awake = alerting /\
       run cfg (map closed_at (t0 :: ts)) awake = alerting).
Proof.
  intros awake timing alerting.
  assert (Hstart : step cfg awake (closed_at t0) = timing) by reflexivity.
  assert (Hcmp : forall t, step cfg timing (closed_at t)
                 = if Qgtb (t - t0) (sensitivity cfg) then alerting else timing).
  { intro t. rewrite step_logic. unfold drowsiness_logic. simpl.
    destruct (Qgtb (t - t0) (sensitivity cfg)); reflexivity. }
  assert (Hwithin : sensitivity cfg == 1.5 ->
            forall ts, Forall (fun t => t - t0 <= 1.4) ts ->
              run cfg (map closed_at (t0 :: ts)) awake = timing).
  { intros Hthr ts Hall. simpl map. rewrite run_cons, Hstart.
    apply (run_closed_waiting cfg ts timing t0); [reflexivity|].
    eapply Forall_impl; [|exact Hall]. intros x Hx. cbv beta in Hx. lra. }
  split; [exact Hstart|]. split; [exact Hcmp|]. split; [|split; [|split]].
  - intros t Heq. rewrite Hcmp.
    assert (E : Qgtb (t - t0) (sensitivity cfg) = false)
      by (apply Qgtb_false; lra).
    rewrite E. reflexivity.
  - exact Hwithin.
  - intros Hthr ts Hs Hlast. apply (Hwithin Hthr).
    apply Sorted_StronglySorted in Hs; [|exact Qle_Transitive].
    apply StronglySorted_inv in Hs. destruct Hs as [Hs Hfrom].
    destruct ts as [|b ts]; [constructor|].
    pose proof (sorted_le_last (b :: ts) t0 Hs) as Hle.
    remember (last (b :: ts) t0) as tl.
    eapply Forall_impl; [|exact Hle]. intros x Hx. cbv beta in Hx. lra.
  - intros Hthr ts Hlast.
    assert (Hex : Exists (fun t => 1.5 < t - t0) ts)
      by (apply last_past_threshold; lra).
    destruct (first_past_threshold 1.5 t0 ts Hex)
      as [pre [t [post [E [Hpre Ht]]]]].
    exists pre, t, post.
    assert (Hwait : run cfg (map closed_at (t0 :: pre)) awake = timing).
    { simpl map. rewrite run_cons, Hstart.
      apply (run_closed_waiting cfg pre timing t0); [reflexivity|].
      eapply Forall_impl; [|exact Hpre]. intros x Hx. cbv beta in Hx. lra. }
    assert (Hfire : run cfg (map closed_at (t0 :: pre ++ [t])) awake = alerting).
    { change (t0 :: pre ++ [t]) with ((t0 :: pre) ++ [t]).
      rewrite map_app, run_app, Hwait. simpl. rewrite Hcmp.
      assert (E' : Qgtb (t - t0) (sensitivity cfg) = true)
        by (apply Qgtb_true; lra).
      rewrite E'. reflexivity. }
    repeat split; try assumption.
    subst ts.
    change (t0 :: pre ++ t :: post) with ((t0 :: pre) ++ [t] ++ post).
    rewrite app_assoc, map_app, run_app.
    change ((t0 :: pre) ++ [t]) with (t0 :: pre ++ [t]). rewrite Hfire.
    apply (run_closed_alerting cfg _ alerting t0);
      [apply Forall_closed_at|reflexivity|reflexivity].
Qed.

Lemma threshold_edge_timing_witness :
  run demo_settings (map closed_at [10; 10.7; 11.4]) initial_state
  = mkState (Some 10) false 0 false /\
  run demo_settings (map closed_at [10; 11.5; 11.55; 11.6]) initial_state
  = mkState (Some 10) true 1 true.
Proof.
  destruct (threshold_edge_timing demo_settings 0 10)
    as [_ [_ [_ [_ [Hshort Hlong]]]]].
  assert (Hthr : sensitivity demo_settings == 1.5) by reflexivity.
  split.
  - apply (Hshort Hthr [10.7; 11.4]).
    + repeat (constructor; try (simpl; lra)).
    + reflexivity.
  - destruct (Hlong Hthr [11.5; 11.55; 11.6]) as [pre [t [post [_ [_ [_ [_ [_ H]]]]]]]].
    + reflexivity.
    + exact H.
Defined.

(** An episode of 1.4 s and one of 1.6 s, frame by frame. *)
Example episode_of_1_4_never_alerts :
  map total_alerts
      [run demo_settings [closed_at 10] initial_state;
       run demo_settings [closed_at 10; closed_at 10.7] initial_state;
       run demo_settings [closed_at 10; closed_at 10.7; closed_at 11.4]
           initial_state]
  = [0; 0; 0]%nat.
Proof. reflexivity. Qed.

Example episode_of_1_6_alerts_once :
  map total_alerts
      [run demo_settings [closed_at 10; closed_at 11.5] initial_state;
       run demo_settings [closed_at 10; closed_at 11.5; closed_at 11.55]
           initial_state;
       run demo_settings [closed_at 10; closed_at 11.5; closed_at 11.55;
                          closed_at 11.6] initial_state]
  = [0; 1; 1]%nat.
Proof. reflexivity. Qed.

(* ================================================================= *)
(** ** What fires on the edge and what follows the level *)

(** [play_alarm] is set and cleared together with [alarm_on]. *)
Lemma step_play_alarm cfg s o :
  play_alarm s = alarm_on s ->
  play_alarm (step cfg s o) = alarm_on (step cfg s o).
Proof.
  intro E. rewrite step_logic. unfold drowsiness_logic.
  destruct (drowsy o); [|reflexivity].
  destruct (closed_start s); [|exact E].
  destruct (Qgtb _ _); [|exact E].
  destruct (alarm_on s) eqn:Ha; simpl; congruence.
Qed.

Lemma run_play_alarm cfg obs s :
  play_alarm s = alarm_on s ->
  play_alarm (run cfg obs s) = alarm_on (run cfg obs s).
Proof.
  revert s. induction obs as [|o obs IH]; intros s E; [exact E|].
  rewrite run_cons. apply IH. apply step_play_alarm. exact E.
Qed.

(** C5, as the code has it. In every frame of a session the counter
    increment and the Firebase push happen exactly when the frame takes
    the machine from EYES_CLOSED_TIMING to ALERTING, so once per alerting
    episode and never again while the machine stays in ALERTING; the audio
    element is written in every frame that ends with the alert on, when
    the sound is enabled, the frames that stay in ALERTING included. *)
Theorem alert_edge_once_alarm_sound_level cfg obs o :
  let s := run cfg obs initial_state in
  let s' := step cfg s o in
  let eff := effects (snd (frame_update cfg o s)) in
  let fired := negb (alarm_on s) && alarm_on s' in
  (fired = true <-> EYES_CLOSED_TIMING s /\ ALERTING s') /\
  total_alerts s' = (total_alerts s + if fired then 1 else 0)%nat /\
  length (filter is_push eff)
  = (if fired && FIREBASE_ENABLED cfg then 1 else 0)%nat /\
  length (filter is_audio eff)
  = (if alarm_on s' && enable_sound cfg then 1 else 0)%nat /\
  (ALERTING s -> drowsy o = true ->
   s' = s /\ filter is_push eff = [] /\
   filter is_audio eff = if enable_sound cfg then [AudioMarkup] else []).
Proof.
  intros s s' eff fired.
  pose proof (run_play_alarm cfg obs initial_state eq_refl) as Hp.
  fold s in Hp. subst s' eff fired. clearbody s.
  unfold EYES_CLOSED_TIMING, ALERTING, step, frame_update, drowsiness_logic,
    play_alarm_sound.
  destruct s as [c a n p]. simpl in Hp. subst p. simpl.
  destruct (drowsy o); simpl.
  - destruct c as [t0|]; simpl.
    + destruct (Qgtb (now o - t0) (sensitivity cfg)); simpl;
        destruct a; simpl;
        destruct (FIREBASE_ENABLED cfg); destruct (enable_sound cfg); simpl;
        repeat split; intros; try lia; try congruence; try tauto;
        try (split; [discriminate|reflexivity]);
        try (destruct H as [[_ ?] _]; discriminate);
        try (destruct H as [_ [_ ?]]; discriminate).
    + destruct a; destruct (enable_sound cfg); simpl;
        repeat split; intros; try lia; try congruence; try tauto;
        try (destruct H as [[? _] _]; congruence);
        try (destruct H as [? _]; congruence).
  - destruct a; simpl; repeat split; intros; try lia; try congruence;
      try (destruct H as [_ [_ ?]]; discriminate).
Qed.

Lemma alert_edge_once_alarm_sound_level_witness :
  let s := run demo_settings [closed_at 0; closed_at 2] initial_state in
  ALERTING s /\
  step demo_settings s (closed_at 3) = s /\
  filter is_audio (effects (snd (frame_update demo_settings (closed_at 3) s)))
  = [AudioMarkup].
Proof.
  intro s.
  assert (H1 : ALERTING s) by (split; [discriminate|reflexivity]).
  split; [exact H1|].
  destruct (alert_edge_once_alarm_sound_level demo_settings
              [closed_at 0; closed_at 2] (closed_at 3))
    as [_ [_ [_ [_ Hstay]]]].
  destruct (Hstay H1 eq_refl) as [E1 [_ E3]].
  split; [exact E1|exact E3].
Defined.

(** C5 as stated fails for the alarm sound: in one episode of four frames
    the audio element is written three times, twice of them while the
    machine stays in ALERTING, although the counter moved once. *)
Lemma alarm_sound_repeats_while_alerting :
  let obs := [closed_at 0; closed_at 2; closed_at 3; closed_at 4] in
  alerting_runs (sensitivity demo_settings) obs = 1%nat /\
  total_alerts (run demo_settings obs initial_state) = 1%nat /\
  count_effect is_push (run_effects demo_settings obs initial_state) = 1%nat /\
  count_effect is_audio (run_effects demo_settings obs initial_state) = 3%nat /\
  count_effect is_audio (run_effects demo_settings obs initial_state)
  <> alerting_runs (sensitivity demo_settings) obs.
Proof.
  cbv zeta. repeat split; try reflexivity. vm_compute. discriminate.
Qed.

(* ================================================================= *)
(** ** The detector adapter *)

Lemma outcome_bind {A B} (m : M A) (f : A -> M B) :
  outcome (bind m f)
  = match outcome m with
    | Returned a => outcome (f a)
    | Raised e => Raised e
    end.
Proof.
  destruct m as [l [a|e]]; simpl; [|reflexivity].
  destruct (f a); reflexivity.
Qed.

Lemma calls_bind {A B} (m : M A) (f : A -> M B) :
  calls (bind m f)
  = calls m ++ match outcome m with
               | Returned a => calls (f a)
               | Raised _ => []
               end.
Proof.
  destruct m as [l [a|e]]; simpl; [|symmetry; apply app_nil_r].
  destruct (f a); reflexivity.
Qed.

Lemma detect_eyes_outcome roi :
  outcome (detect_eyes roi)
  = match detectMultiScale eye_cascade roi (strict_params eye_detection_sensitivity) with
    | Returned [] => detectMultiScale eye_cascade roi (lenient_params eye_detection_sensitivity)
    | other => other
    end.
Proof.
  unfold detect_eyes. rewrite outcome_bind. unfold invoke. simpl.
  destruct (detectMultiScale eye_cascade roi (strict_params eye_detection_sensitivity)) as [[|r rs]|e];
    reflexivity.
Qed.

Lemma detect_eyes_calls roi :
  calls (detect_eyes roi)
  = match detectMultiScale eye_cascade roi (strict_params eye_detection_sensitivity) with
    | Returned [] => [mkCall eye_cascade roi (strict_params eye_detection_sensitivity);
                      mkCall eye_cascade roi (lenient_params eye_detection_sensitivity)]
    | _ => [mkCall eye_cascade roi (strict_params eye_detection_sensitivity)]
    end.
Proof.
  unfold detect_eyes. rewrite calls_bind. unfold invoke. simpl.
  destruct (detectMultiScale eye_cascade roi (strict_params eye_detection_sensitivity)) as [[|r rs]|e];
    reflexivity.
Qed.

Lemma face_loop_cons gray f rest acc :
  outcome (face_loop gray (f :: rest) acc)
  = match eyes_of gray f with
    | Returned eyes =>
        outcome (face_loop gray rest
                   (if (0 <? length eyes)%nat then false else fst acc,
                    length eyes))
    | Raised e => Raised e
    end.
Proof. simpl. rewrite outcome_bind. reflexivity. Qed.

(** The loop returns when no eye detection raises. *)
Lemma face_loop_returns gray faces : forall acc,
  Forall (fun f => exists eyes, eyes_of gray f = Returned eyes) faces ->
  exists d n, outcome (face_loop gray faces acc) = Returned (d, n).
Proof.
  induction faces as [|f rest IH]; intros [d0 n0] Hall.
  - exists d0, n0. reflexivity.
  - inversion Hall as [|? ? [eyes He] Hrest]; subst.
    rewrite face_loop_cons, He. apply IH. exact Hrest.
Qed.

(** What it returns: [drowsy] survives only faces without eyes, and
    [eyes_detected] is what the last face gave. *)
Lemma face_loop_result gray faces : forall acc d n,
  outcome (face_loop gray faces acc) = Returned (d, n) ->
  (d = true <->
   fst acc = true /\ Forall (fun f => eyes_of gray f = Returned []) faces)
  /\ (faces = [] -> n = snd acc)
  /\ (forall f0, faces <> [] ->
        exists eyes, eyes_of gray (last faces f0) = Returned eyes
                     /\ n = length eyes).
Proof.
  induction faces as [|f rest IH]; intros [d0 n0] d n H.
  - simpl in H. injection H as <- <-. simpl.
    split; [|split; [reflexivity|congruence]].
    split; [intro; split; [assumption|constructor]|tauto].
  - rewrite face_loop_cons in H.
    destruct (eyes_of gray f) as [eyes|e] eqn:He; [|discriminate].
    destruct (IH _ _ _ H) as [Hd [Hnil Hlast]]. cbn [fst snd] in *.
    split; [|split; [discriminate|]].
    + rewrite Hd. destruct eyes as [|r rs]; simpl.
      * split.
        -- intros [E Hall]. split; [exact E|]. constructor; assumption.
        -- intros [E Hall]. split; [exact E|]. inversion Hall; assumption.
      * split; [intros [E _]; discriminate|].
        intros [_ Hall]. inversion Hall; subst. congruence.
    + intros f0 _. destruct rest as [|g rest'].
      * exists eyes. split; [exact He|]. apply Hnil. reflexivity.
      * change (last (f :: g :: rest') f0) with (last (g :: rest') f0).
        apply Hlast. discriminate.
Qed.

Lemma detect_frame_outcome gray faces :
  detectMultiScale face_cascade gray face_params = Returned faces ->
  outcome (detect_frame gray)
  = outcome (face_loop gray faces (true, 0%nat)).
Proof.
  intro H. unfold detect_frame. rewrite outcome_bind.
  unfold invoke. simpl. rewrite H. reflexivity.
Qed.

(** C3. For a frame whose faces the face cascade returned: the
    detection returns when no eye detection raises; when it returns,
    [drowsy] is true if and only if every face has zero eye Regions; a
    frame without faces is drowsy; a frame with two faces, one with eyes
    and one without, in either order, is not. *)
Theorem drowsy_iff_no_face_has_eyes gray faces :
  detectMultiScale face_cascade gray face_params = Returned faces ->
  (Forall (fun f => exists eyes, eyes_of gray f = Returned eyes) faces ->
   exists d n, outcome (detect_frame gray) = Returned (d, n)) /\
  (forall d n, outcome (detect_frame gray) = Returned (d, n) ->
     (d = true <-> Forall (fun f => eyes_of gray f = Returned []) faces)) /\
  (faces = [] -> outcome (detect_frame gray) = Returned (true, 0%nat)) /\
  (forall f1 f2 eyes, faces = [f1; f2] ->
     eyes_of gray f1 = Returned eyes -> eyes <> [] ->
     eyes_of gray f2 = Returned [] ->
     outcome (detect_frame gray) = Returned (false, 0%nat)) /\
  (forall f1 f2 eyes, faces = [f1; f2] ->
     eyes_of gray f1 = Returned [] ->
     eyes_of gray f2 = Returned eyes -> eyes <> [] ->
     outcome (detect_frame gray) = Returned (false, length eyes)).
Proof.
  intro Hf. rewrite (detect_frame_outcome gray faces Hf).
  split; [apply face_loop_returns|]. split; [|split; [|split]].
  - intros d n H. destruct (face_loop_result gray faces _ d n H) as [Hd _].
    rewrite Hd. simpl. tauto.
  - intros ->. reflexivity.
  - intros f1 f2 eyes -> H1 Hne H2.
    rewrite face_loop_cons, H1, face_loop_cons, H2.
    destruct eyes as [|r rs]; [congruence|]. reflexivity.
  - intros f1 f2 eyes -> H1 H2 Hne.
    rewrite face_loop_cons, H1, face_loop_cons, H2.
    destruct eyes as [|r rs]; [congruence|]. reflexivity.
Qed.


(** C4, as the code has it. The eye cascade is invoked a second time
    exactly when the strict pass returns zero Regions (not when it
    returns some, nor when it raises); the lenient pass has the smaller
    scale factor, 1.05 against 1.1, which is the finer scale step; its
    neighbour threshold is the sensitivity less one, floored at one; its
    minimum size is smaller and it has no maximum size; the Regions
    returned are those of the strict pass when it found some and those of
    the lenient pass otherwise; and a face whose strict pass is empty and
    whose lenient pass is not counts as eyes open. *)
Theorem two_pass_eye_detection roi :
  calls (detect_eyes roi)
  = match detectMultiScale eye_cascade roi
            (strict_params eye_detection_sensitivity) with
    | Returned [] =>
        [mkCall eye_cascade roi (strict_params eye_detection_sensitivity);
         mkCall eye_cascade roi (lenient_params eye_detection_sensitivity)]
    | _ => [mkCall eye_cascade roi (strict_params eye_detection_sensitivity)]
    end /\
  (length (calls (detect_eyes roi)) = 2%nat <->
   detectMultiScale eye_cascade roi (strict_params eye_detection_sensitivity)
   = Returned []) /\
  outcome (detect_eyes roi)
  = match detectMultiScale eye_cascade roi
            (strict_params eye_detection_sensitivity) with
    | Returned [] =>
        detectMultiScale eye_cascade roi
          (lenient_params eye_detection_sensitivity)
    | other => other
    end /\
  scaleFactor (lenient_params eye_detection_sensitivity)
  < scaleFactor (strict_params eye_detection_sensitivity) /\
  minNeighbors (strict_params eye_detection_sensitivity)
  = eye_detection_sensitivity /\
  minNeighbors (lenient_params eye_detection_sensitivity)
  = Z.max 1 (eye_detection_sensitivity - 1) /\
  (1 <= minNeighbors (lenient_params eye_detection_sensitivity))%Z /\
  minSize (strict_params eye_detection_sensitivity) = Some (15, 15)%nat /\
  minSize (lenient_params eye_detection_sensitivity) = Some (12, 12)%nat /\
  maxSize (strict_params eye_detection_sensitivity) = Some (80, 80)%nat /\
  maxSize (lenient_params eye_detection_sensitivity) = None /\
  (forall gray f eyes,
     roi = crop gray f ->
     detectMultiScale eye_cascade roi (strict_params eye_detection_sensitivity)
     = Returned [] ->
     detectMultiScale eye_cascade roi (lenient_params eye_detection_sensitivity)
     = Returned eyes ->
     eyes <> [] ->
     outcome (face_loop gray [f] (true, 0%nat))
     = Returned (false, length eyes)).
Proof.
  split; [apply detect_eyes_calls|].
  split.
  { rewrite detect_eyes_calls.
    destruct (detectMultiScale eye_cascade roi
                (strict_params eye_detection_sensitivity)) as [[|r rs]|e];
      simpl; split; (reflexivity || discriminate). }
  split; [apply detect_eyes_outcome|].
  split; [simpl; lra|].
  split; [reflexivity|]. split; [reflexivity|].
  split; [simpl; lia|].
  repeat (split; [reflexivity|]).
  intros gray f eyes -> Hs Hl Hne.
  rewrite face_loop_cons. unfold eyes_of.
  rewrite detect_eyes_outcome, Hs, Hl.
  destruct eyes as [|r rs]; [congruence|]. reflexivity.
Qed.

(** C10. When the faces of a frame end with the face [f], the
    eyes-detected count the frame reports, which is the metric the
    dashboard shows, is the number of eye Regions found for [f] alone; it
    is 0 when [f] has none, also when an earlier face had eyes and the
    frame therefore counts as eyes open. *)
Theorem eyes_detected_is_last_face gray faces f d n :
  detectMultiScale face_cascade gray face_params = Returned (faces ++ [f]) ->
  outcome (detect_frame gray) = Returned (d, n) ->
  (exists eyes, eyes_of gray f = Returned eyes /\ n = length eyes) /\
  (forall cfg t s,
     eyes_status_metric (snd (frame_update cfg (mkObs d n t) s)) = n) /\
  (eyes_of gray f = Returned [] ->
   Exists (fun f' => exists eyes', eyes_of gray f' = Returned eyes'
                                   /\ eyes' <> []) faces ->
   d = false /\ n = 0%nat).
Proof.
  intros Hf H. rewrite (detect_frame_outcome gray _ Hf) in H.
  destruct (face_loop_result gray (faces ++ [f]) _ d n H) as [Hd [_ Hlast]].
  assert (Hn : exists eyes, eyes_of gray f = Returned eyes /\ n = length eyes).
  { specialize (Hlast f). rewrite last_last in Hlast. apply Hlast.
    intro E. apply app_eq_nil in E. destruct E as [_ E]. discriminate E. }
  split; [exact Hn|]. split.
  - intros cfg t s. unfold frame_update.
    destruct (drowsiness_logic cfg (mkObs d n t) s) as [[s' st] eff].
    reflexivity.
  - intros Hnone Hex. split.
    + destruct d; [|reflexivity]. exfalso.
      destruct (proj1 Hd eq_refl) as [_ Hall].
      apply Forall_app in Hall. destruct Hall as [Hall _].
      rewrite Forall_forall in Hall. rewrite Exists_exists in Hex.
      destruct Hex as [f' [Hin [eyes' [He Hne]]]].
      rewrite (Hall f' Hin) in He. injection He as <-. congruence.
    + destruct Hn as [eyes [He ->]]. rewrite Hnone in He.
      injection He as <-. reflexivity.
Qed.

(* ================================================================= *)
(** ** The camera handle *)

Lemma detection_loop_no_release cfg inputs remaining : forall frame_count s,
  filter is_release
         (fst (fst (fst (detection_loop cfg inputs remaining frame_count s))))
  = [].
Proof.
  induction remaining as [|remaining' IH]; intros frame_count s; [reflexivity|].
  simpl.
  destruct (detection_running (inputs frame_count)); [|reflexivity].
  destruct (ret (inputs frame_count)); [|reflexivity].
  simpl.
  destruct (detect_frame (gray_frame (inputs frame_count)))
    as [cs [[d n]|e]]; [|reflexivity].
  destruct (frame_update cfg (mkObs d n (clock (inputs frame_count))) s)
    as [s' out].
  specialize (IH (S frame_count) s').
  destruct (detection_loop cfg inputs remaining' (S frame_count) s')
    as [[[ev s''] fc] exn].
  simpl in *. exact IH.
Qed.

(** C6, as the code has it. A session whose camera opened releases it
    exactly once, whatever ends the loop (the stop flag, the frame limit,
    a read failure, an exception of a cascade): the release comes after
    everything the loop did and before [detection_running] is cleared.
    A session whose camera did not open never enters the loop and
    performs no release. *)
Theorem camera_released_once_when_opened cfg inputs camera_index s :
  (exists before restart,
     fst (main_detection cfg inputs camera_index true s)
     = before ++ [CapRelease; DestroyAllWindows;
                  SetDetectionRunning false; StInfo] ++ restart
     /\ filter is_release before = []
     /\ (restart = [] \/ restart = [Rerun])) /\
  releases (fst (main_detection cfg inputs camera_index true s)) = 1%nat /\
  fst (main_detection cfg inputs camera_index false s)
  = [VideoCapture camera_index; CapSet; StError UnableToOpenCamera;
     StWarning; SetDetectionRunning false] /\
  releases (fst (main_detection cfg inputs camera_index false s)) = 0%nat.
Proof.
  assert (Hshape : exists before restart,
     fst (main_detection cfg inputs camera_index true s)
     = before ++ [CapRelease; DestroyAllWindows;
                  SetDetectionRunning false; StInfo] ++ restart
     /\ filter is_release before = []
     /\ (restart = [] \/ restart = [Rerun])).
  { unfold main_detection. simpl negb. cbv iota.
    pose proof (detection_loop_no_release cfg inputs max_frames 0 s) as Hno.
    destruct (detection_loop cfg inputs max_frames 0 s)
      as [[[ev s'] fc] exn].
    simpl in Hno.
    exists ([VideoCapture camera_index; CapSet; StSuccess] ++ ev ++
            match exn with
            | Some e => [StError (ErrorDuringDetection e)]
            | None => []
            end),
           (if (max_frames <=? fc)%nat then [Rerun] else []).
    split; [|split].
    - cbn [fst]. rewrite <- !app_assoc. reflexivity.
    - rewrite !filter_app, Hno. destruct exn; reflexivity.
    - destruct (max_frames <=? fc)%nat; auto. }
  split; [exact Hshape|]. split; [|split; reflexivity].
  destruct Hshape as [before [restart [E [Hno Hr]]]].
  unfold releases. rewrite E, !filter_app, Hno.
  destruct Hr as [-> | ->]; reflexivity.
Qed.

(* ================================================================= *)
(** * Further properties of the script *)

(* ================================================================= *)
(** ** The status label, the settings and the threshold *)

Lemma frame_update_alert cfg o s :
  (current_status (snd (frame_update cfg o s)) = ALERT <->
   drowsy o = true /\
   exists t0, closed_start s = Some t0 /\ sensitivity cfg < now o - t0) /\
  (current_status (snd (frame_update cfg o s)) = ALERT ->
   alarm_on (step cfg s o) = true).
Proof.
  unfold step, frame_update, drowsiness_logic.
  destruct (drowsy o).
  - destruct (closed_start s) as [t0|].
    + destruct (Qgtb (now o - t0) (sensitivity cfg)) eqn:Hcmp.
      * apply Qgtb_true in Hcmp.
        destruct (alarm_on s) eqn:Ha; simpl;
          (split; [split; [intros _; split; [reflexivity|exists t0; auto]
                          |reflexivity]
                  |intros _; (exact Ha || reflexivity)]).
      * apply Qgtb_false in Hcmp. simpl.
        split; [split; [discriminate|]|discriminate].
        intros [_ [t1 [E Hlt]]]. injection E as <-. lra.
    + simpl. split; [split; [discriminate|]|discriminate].
      intros [_ [t1 [E _]]]. discriminate E.
  - simpl. split; [split; [discriminate|]|discriminate].
    intros [H _]. discriminate H.
Qed.

(** X6. The label of a frame is the alert exactly when the eyes are closed,
    the timer is set and the frame's time is more than the threshold past
    it, and exactly then the overlay text is drawn; an eyes-closed frame
    that has not passed the threshold is labelled as safe. A frame
    labelled as alert always leaves [alarm_on] set, and the counter shown
    is the counter after the frame. *)
Theorem status_alert_iff cfg o s :
  let out := snd (frame_update cfg o s) in
  let s' := step cfg s o in
  (current_status out = ALERT <->
   drowsy o = true /\
   exists t0, closed_start s = Some t0 /\ sensitivity cfg < now o - t0) /\
  (current_status out = ALERT <-> In PutTextAlert (effects out)) /\
  (current_status out = ALERT -> alarm_on s' = true) /\
  alert_count_metric out = total_alerts s'.
Proof.
  destruct (frame_update_alert cfg o s) as [Hiff Hon]. cbv zeta.
  split; [exact Hiff|]. split; [|split; [exact Hon|]].
  - unfold frame_update, drowsiness_logic, play_alarm_sound.
    assert (Hno : forall b : bool,
              ~ In PutTextAlert ([] ++ if b then [AudioMarkup] else [])).
    { intros [|] H; simpl in H;
        [destruct H as [H|H]; [discriminate H|contradiction]|contradiction]. }
    destruct (drowsy o);
      [destruct (closed_start s) as [t0|];
       [destruct (Qgtb (now o - t0) (sensitivity cfg));
        [destruct (alarm_on s)|]|]|];
      cbn [fst snd current_status effects negb];
      try (split; [intros _; left; reflexivity|reflexivity]);
      (split; [discriminate|intro H; apply Hno in H; destruct H]).
  - unfold step, frame_update.
    destruct (drowsiness_logic cfg o s) as [[s' st] eff]. reflexivity.
Qed.

(** X11. The sound checkbox and the Firebase switch decide what a frame
    emits, never the state or the label: two sessions with the same
    threshold go through the same states, count the same alerts and show
    the same status on every frame. *)
Theorem sound_and_firebase_do_not_steer cfg1 cfg2 obs s :
  sensitivity cfg1 = sensitivity cfg2 ->
  run cfg1 obs s = run cfg2 obs s /\
  (forall o s0,
     current_status (snd (frame_update cfg1 o s0))
     = current_status (snd (frame_update cfg2 o s0))).
Proof.
  intro E.
  assert (Hlogic : forall o s0,
            fst (drowsiness_logic cfg1 o s0) = fst (drowsiness_logic cfg2 o s0)).
  { intros o s0. unfold drowsiness_logic. rewrite E.
    destruct (drowsy o); [|reflexivity].
    destruct (closed_start s0); [|reflexivity].
    destruct (Qgtb _ _); [|reflexivity].
    destruct (negb (alarm_on s0)); reflexivity. }
  split.
  - revert s. induction obs as [|o obs IH]; intro s; [reflexivity|].
    rewrite !run_cons, !step_logic, Hlogic. apply IH.
  - intros o s0. unfold frame_update.
    pose proof (Hlogic o s0) as H.
    destruct (drowsiness_logic cfg1 o s0) as [[s1 st1] e1].
    destruct (drowsiness_logic cfg2 o s0) as [[s2 st2] e2].
    simpl in *. congruence.
Qed.

Lemma sound_and_firebase_do_not_steer_witness :
  sensitivity demo_settings = sensitivity (mkSettings 1.5 false false) /\
  run demo_settings demo_session initial_state
  = run (mkSettings 1.5 false false) demo_session initial_state.
Proof.
  assert (H : sensitivity demo_settings
              = sensitivity (mkSettings 1.5 false false)) by reflexivity.
  split; [exact H|].
  exact (proj1 (sound_and_firebase_do_not_steer demo_settings
                  (mkSettings 1.5 false false) demo_session initial_state H)).
Defined.

Lemma filter_length_mono {A} (p q : A -> bool) (l : list A) :
  (forall x, p x = true -> q x = true) ->
  (length (filter p l) <= length (filter q l))%nat.
Proof.
  intro Hpq. induction l as [|a l IH]; simpl; [lia|].
  destruct (p a) eqn:Hp.
  - rewrite (Hpq a Hp). simpl. lia.
  - destruct (q a); simpl; lia.
Qed.

Lemma past_threshold_mono thr1 thr2 r :
  thr1 <= thr2 -> past_threshold thr2 r = true -> past_threshold thr1 r = true.
Proof.
  intro Hle. unfold past_threshold. rewrite !existsb_exists.
  intros [t [Hin Ht]]. exists t. split; [exact Hin|].
  apply Qgtb_true in Ht. apply Qgtb_true. lra.
Qed.

(** X12. Raising the threshold never adds an alert: on the same frames, from
    AWAKE, the session with the higher threshold counts at most as many
    alerts as the one with the lower threshold. *)
Theorem higher_threshold_fewer_alerts cfg1 cfg2 obs s :
  0 <= sensitivity cfg1 -> sensitivity cfg1 <= sensitivity cfg2 -> AWAKE s ->
  (total_alerts (run cfg2 obs s) <= total_alerts (run cfg1 obs s))%nat.
Proof.
  intros H0 Hle [Hc Ha].
  assert (H0' : 0 <= sensitivity cfg2) by lra.
  pose proof (run_counts_any_clock cfg1 obs H0 s [] (conj Hc Ha)) as E1.
  pose proof (run_counts_any_clock cfg2 obs H0' s [] (conj Hc Ha)) as E2.
  rewrite Ha in E1, E2.
  pose proof (filter_length_mono
                (past_threshold (sensitivity cfg2))
                (past_threshold (sensitivity cfg1))
                (closed_runs_from [] obs)
                (fun r => past_threshold_mono _ _ r Hle)) as Hm.
  lia.
Qed.

Lemma higher_threshold_fewer_alerts_witness :
  0 <= sensitivity demo_settings /\
  sensitivity demo_settings <= sensitivity (mkSettings 2.5 true true) /\
  AWAKE initial_state /\
  (total_alerts (run (mkSettings 2.5 true true) demo_session initial_state)
   <= total_alerts (run demo_settings demo_session initial_state))%nat.
Proof.
  assert (H0 : 0 <= sensitivity demo_settings) by (simpl; lra).
  assert (H1 : sensitivity demo_settings
               <= sensitivity (mkSettings 2.5 true true)) by (simpl; lra).
  assert (H2 : AWAKE initial_state) by (split; reflexivity).
  split; [exact H0|]. split; [exact H1|]. split; [exact H2|].
  exact (higher_threshold_fewer_alerts demo_settings (mkSettings 2.5 true true)
           demo_session initial_state H0 H1 H2).
Defined.

(* ================================================================= *)
(** ** The timer and the flags *)

Lemma step_closed_start cfg s o :
  closed_start (step cfg s o)
  = if drowsy o
    then match closed_start s with Some t0 => Some t0 | None => Some (now o) end
    else None.
Proof.
  rewrite step_logic. unfold drowsiness_logic.
  destruct (drowsy o); [|reflexivity].
  destruct (closed_start s) as [t0|] eqn:Hc; [|reflexivity].
  destruct (Qgtb _ _); [|exact Hc].
  destruct (alarm_on s); simpl; [exact Hc|reflexivity].
Qed.

Lemma run_closed_start cfg obs : forall s cur,
  closed_start s = hd_error cur ->
  closed_start (run cfg obs s)
  = hd_error (fold_left (fun cur o => if eyes_open_this_frame o then []
                                      else cur ++ [now o]) obs cur).
Proof.
  induction obs as [|o obs IH]; intros s cur H; [exact H|].
  rewrite run_cons. simpl fold_left. apply IH.
  rewrite step_closed_start, H. unfold eyes_open_this_frame.
  destruct (drowsy o); simpl; [|reflexivity].
  destruct cur; reflexivity.
Qed.

Lemma run_closed_keeps_timer cfg more : forall s t0,
  Forall (fun o => drowsy o = true) more ->
  closed_start s = Some t0 ->
  closed_start (run cfg more s) = Some t0.
Proof.
  induction more as [|o more IH]; intros s t0 Hall Hc; [exact Hc|].
  inversion Hall as [|? ? Ho Hrest]; subst.
  rewrite run_cons. apply IH; [exact Hrest|].
  rewrite step_closed_start, Ho, Hc. reflexivity.
Qed.

(** X8. From a state without a timer, [closed_start] after any frames is the
    time of the first frame of the episode in progress: it is empty
    exactly when there is no frame yet or the last frame had the eyes
    open, and no later eyes-closed frame of the episode moves it. *)
Theorem closed_start_is_episode_start cfg obs s :
  closed_start s = None ->
  closed_start (run cfg obs s) = hd_error (current_run obs) /\
  (forall before o, obs = before ++ [o] ->
     (closed_start (run cfg obs s) = None <-> drowsy o = false)) /\
  (forall more, Forall (fun o => drowsy o = true) more ->
     closed_start (run cfg obs s) <> None ->
     closed_start (run cfg (obs ++ more) s) = closed_start (run cfg obs s)).
Proof.
  intro Hc. split; [|split].
  - apply (run_closed_start cfg obs s []). exact Hc.
  - intros before o ->. rewrite run_app. simpl. rewrite step_closed_start.
    destruct (drowsy o).
    + destruct (closed_start (run cfg before s));
        split; intro H; discriminate H.
    + split; reflexivity.
  - intros more Hall Hset. rewrite run_app.
    destruct (closed_start (run cfg obs s)) as [t0|] eqn:E; [|congruence].
    apply run_closed_keeps_timer; assumption.
Qed.

Lemma closed_start_is_episode_start_witness :
  closed_start initial_state = None /\
  closed_start (run demo_settings demo_session initial_state) = Some 8.
Proof.
  assert (H : closed_start initial_state = None) by reflexivity.
  split; [exact H|].
  rewrite (proj1 (closed_start_is_episode_start demo_settings demo_session
                    initial_state H)).
  reflexivity.
Defined.

(** X9. [play_alarm] carries nothing of its own: in every state of a session
    it has the value of [alarm_on]. *)
Theorem play_alarm_mirrors_alarm_on cfg obs :
  play_alarm (run cfg obs initial_state) = alarm_on (run cfg obs initial_state).
Proof.
  induction obs as [|o obs IH] using rev_ind; [reflexivity|].
  rewrite run_app. simpl. apply step_play_alarm. exact IH.
Qed.

Lemma frame_update_step cfg o s : fst (frame_update cfg o s) = step cfg s o.
Proof. reflexivity. Qed.

Lemma frame_update_pushed cfg o s :
  pushed (effects (snd (frame_update cfg o s)))
  = if FIREBASE_ENABLED cfg && (total_alerts (step cfg s o) =? S (total_alerts s))%nat
    then [(eyes_detected o, S (total_alerts s))]
    else [].
Proof.
  assert (Hne : (total_alerts s =? S (total_alerts s))%nat = false)
    by (apply Nat.eqb_neq; lia).
  unfold step, frame_update, drowsiness_logic, play_alarm_sound.
  destruct (drowsy o); simpl;
    [|rewrite Hne, andb_false_r; reflexivity].
  destruct (closed_start s) as [t0|]; simpl;
    [|rewrite Hne, andb_false_r;
      destruct (play_alarm s && enable_sound cfg); reflexivity].
  destruct (Qgtb (now o - t0) (sensitivity cfg)); simpl;
    [|rewrite Hne, andb_false_r;
      destruct (play_alarm s && enable_sound cfg); reflexivity].
  destruct (alarm_on s); simpl.
  - rewrite Hne, andb_false_r.
    destruct (play_alarm s && enable_sound cfg); reflexivity.
  - rewrite Nat.eqb_refl, andb_true_r.
    destruct (FIREBASE_ENABLED cfg); destruct (enable_sound cfg); reflexivity.
Qed.

Lemma pushed_app l1 l2 : pushed (l1 ++ l2) = pushed l1 ++ pushed l2.
Proof. unfold pushed. apply flat_map_app. Qed.

(** X10. With Firebase enabled the pushes of a session carry the alert numbers
    in order, without gap or repetition: the first carries the counter
    plus one, the last the counter the session ends with. With Firebase
    disabled nothing is pushed. *)
Theorem pushes_number_the_alerts cfg obs s :
  map snd (pushed (concat (run_effects cfg obs s)))
  = if FIREBASE_ENABLED cfg
    then seq (S (total_alerts s))
             (total_alerts (run cfg obs s) - total_alerts s)
    else [].
Proof.
  revert s. induction obs as [|o obs IH]; intro s.
  - simpl. rewrite Nat.sub_diag. destruct (FIREBASE_ENABLED cfg); reflexivity.
  - rewrite run_cons. simpl run_effects.
    pose proof (frame_update_pushed cfg o s) as Hp.
    pose proof (step_total_alerts cfg s o) as Hstep.
    pose proof (run_total_alerts_le cfg obs (step cfg s o)) as Hrun.
    pose proof (frame_update_step cfg o s) as Hfst.
    destruct (frame_update cfg o s) as [s' out]. simpl in Hp, Hfst. subst s'.
    simpl concat. rewrite pushed_app, map_app, IH, Hp.
    destruct (FIREBASE_ENABLED cfg); simpl; [|reflexivity].
    destruct (total_alerts (step cfg s o) =? S (total_alerts s))%nat eqn:E.
    + apply Nat.eqb_eq in E. rewrite E. simpl.
      replace (total_alerts (run cfg obs (step cfg s o)) - total_alerts s)%nat
        with (S (total_alerts (run cfg obs (step cfg s o)) - S (total_alerts s)))
        by lia.
      reflexivity.
    + apply Nat.eqb_neq in E.
      assert (E' : total_alerts (step cfg s o) = total_alerts s) by lia.
      rewrite E'. reflexivity.
Qed.


(* ================================================================= *)
(** ** The region of interest and the calls of a frame *)

Lemma Forall_firstn {A} (P : A -> Prop) n (l : list A) :
  Forall P l -> Forall P (firstn n l).
Proof.
  revert l. induction n as [|n IH]; intros l H; [constructor|].
  destruct l as [|a l]; [constructor|].
  inversion H; subst. simpl. constructor; auto.
Qed.

Lemma Forall_skipn {A} (P : A -> Prop) n (l : list A) :
  Forall P l -> Forall P (skipn n l).
Proof.
  revert l. induction n as [|n IH]; intros l H; [exact H|].
  destruct l as [|a l]; [constructor|].
  inversion H; subst. simpl. auto.
Qed.

(** X1. The region of interest never exceeds the Region: it has at most [h]
    rows of at most [w] pixels, whatever the Region; it is exactly
    [h] by [w] when the Region lies inside the image, and empty when the
    Region starts below the image. *)
Theorem crop_within_region img r :
  (length (crop img r) <= rh r)%nat /\
  Forall (fun row => (length row <= rw r)%nat) (crop img r) /\
  ((ry r + rh r <= length img)%nat ->
   Forall (fun row => (rx r + rw r <= length row)%nat) img ->
   length (crop img r) = rh r /\
   Forall (fun row => length row = rw r) (crop img r)) /\
  ((length img <= ry r)%nat -> crop img r = []).
Proof.
  unfold crop. split; [|split; [|split]].
  - rewrite length_map. apply firstn_le_length.
  - apply Forall_map. apply Forall_forall. intros row _.
    apply firstn_le_length.
  - intros Hrows Hcols. split.
    + rewrite length_map, length_firstn, length_skipn. lia.
    + apply Forall_map. apply Forall_firstn, Forall_skipn.
      eapply Forall_impl; [|exact Hcols]. intros row Hrow. cbv beta in *.
      rewrite length_firstn, length_skipn. lia.
  - intro Hbelow. rewrite (skipn_all2 _ Hbelow). destruct (rh r); reflexivity.
Qed.

Lemma crop_within_region_witness :
  crop frame_left_open (mkRegion 2 0 2 2) = [[0; 0]; [0; 0]]%Z /\
  length (crop frame_left_open (mkRegion 2 0 2 2)) = 2%nat /\
  crop frame_left_open (mkRegion 0 5 2 2) = [].
Proof.
  destruct (crop_within_region frame_left_open (mkRegion 2 0 2 2))
    as [_ [_ [Hexact _]]].
  destruct (crop_within_region frame_left_open (mkRegion 0 5 2 2))
    as [_ [_ [_ Hbelow]]].
  split; [reflexivity|]. split.
  - apply Hexact; [simpl; lia|].
    repeat (constructor; try (simpl; lia)).
  - apply Hbelow. simpl. lia.
Defined.

Lemma face_loop_cons_calls gray f rest acc :
  calls (face_loop gray (f :: rest) acc)
  = calls (detect_eyes (crop gray f))
    ++ match eyes_of gray f with
       | Returned eyes =>
           calls (face_loop gray rest
                    (if (0 <? length eyes)%nat then false else fst acc,
                     length eyes))
       | Raised _ => []
       end.
Proof. simpl. rewrite calls_bind. reflexivity. Qed.


Lemma eye_call_of_more gray f faces c :
  eye_call_of gray faces c -> eye_call_of gray (f :: faces) c.
Proof.
  intros [H1 [H2 [f' [Hin Hc]]]]. split; [exact H1|]. split; [exact H2|].
  exists f'. split; [right; exact Hin|exact Hc].
Qed.

Lemma detect_eyes_calls_shape gray f faces :
  In f faces ->
  Forall (eye_call_of gray faces) (calls (detect_eyes (crop gray f))) /\
  (1 <= length (calls (detect_eyes (crop gray f))) <= 2)%nat.
Proof.
  intro Hin. rewrite detect_eyes_calls.
  assert (Hs : eye_call_of gray faces
                 (mkCall eye_cascade (crop gray f)
                         (strict_params eye_detection_sensitivity)))
    by (split; [reflexivity|split; [left; reflexivity|exists f; auto]]).
  assert (Hl : eye_call_of gray faces
                 (mkCall eye_cascade (crop gray f)
                         (lenient_params eye_detection_sensitivity)))
    by (split; [reflexivity|split; [right; reflexivity|exists f; auto]]).
  destruct (detectMultiScale eye_cascade (crop gray f)
              (strict_params eye_detection_sensitivity)) as [[|r rs]|e];
    (split; [repeat (apply Forall_cons; [assumption|]); apply Forall_nil
            |simpl; lia]).
Qed.

Lemma face_loop_calls gray faces : forall acc,
  Forall (eye_call_of gray faces) (calls (face_loop gray faces acc)) /\
  (length (calls (face_loop gray faces acc)) <= 2 * length faces)%nat /\
  (forall d n, outcome (face_loop gray faces acc) = Returned (d, n) ->
     (length faces <= length (calls (face_loop gray faces acc)))%nat).
Proof.
  induction faces as [|f rest IH]; intro acc.
  - simpl. split; [constructor|]. split; [lia|]. intros; lia.
  - rewrite face_loop_cons_calls, face_loop_cons.
    destruct (detect_eyes_calls_shape gray f (f :: rest) (or_introl eq_refl))
      as [Hshape Hlen].
    destruct (eyes_of gray f) as [eyes|e].
    + destruct (IH (if (0 <? length eyes)%nat then false else fst acc,
                    length eyes)) as [H1 [H2 H3]].
      split; [|split].
      * apply Forall_app. split; [exact Hshape|].
        eapply Forall_impl; [|exact H1]. intro c. apply eye_call_of_more.
      * rewrite length_app. simpl length. lia.
      * intros d n Hret. rewrite length_app. specialize (H3 d n Hret).
        simpl length. lia.
    + split; [|split].
      * rewrite app_nil_r. exact Hshape.
      * rewrite app_nil_r. simpl length. lia.
      * intros d n Hret. discriminate Hret.
Qed.

(** X2. The calls of one frame: the face cascade once, on the whole frame;
    when it raises, nothing else; when it returns faces, only eye-cascade
    calls follow, each with the strict or the lenient parameters on the
    region of one of these faces, at most two a face, and at least one a
    face when the detection returns. *)
Theorem calls_of_a_frame gray :
  match detectMultiScale face_cascade gray face_params with
  | Raised e =>
      calls (detect_frame gray) = [mkCall face_cascade gray face_params] /\
      outcome (detect_frame gray) = Raised e
  | Returned faces =>
      exists eye_calls,
        calls (detect_frame gray)
        = mkCall face_cascade gray face_params :: eye_calls /\
        Forall (eye_call_of gray faces) eye_calls /\
        (length eye_calls <= 2 * length faces)%nat /\
        (forall d n, outcome (detect_frame gray) = Returned (d, n) ->
           (length faces <= length eye_calls)%nat)
  end.
Proof.
  unfold detect_frame. rewrite calls_bind, outcome_bind. unfold invoke. simpl.
  destruct (detectMultiScale face_cascade gray face_params) as [faces|e].
  - exists (calls (face_loop gray faces (true, 0%nat))).
    split; [reflexivity|]. apply face_loop_calls.
  - split; reflexivity.
Qed.

(** X3. An eye detection that raises ends the loop over the faces: the frame
    raises the same exception, and the faces after the one that raised
    are not examined. *)
Theorem face_loop_stops_at_fault gray before f after acc e :
  Forall (fun f' => exists eyes, eyes_of gray f' = Returned eyes) before ->
  eyes_of gray f = Raised e ->
  outcome (face_loop gray (before ++ f :: after) acc) = Raised e /\
  calls (face_loop gray (before ++ f :: after) acc)
  = calls (face_loop gray (before ++ [f]) acc).
Proof.
  intros Hbefore Hf. revert acc.
  induction Hbefore as [|f' before [eyes He] _ IH]; intro acc; simpl app.
  - rewrite face_loop_cons, !face_loop_cons_calls, Hf. split; reflexivity.
  - rewrite face_loop_cons, !face_loop_cons_calls, He.
    destruct (IH (if (0 <? length eyes)%nat then false else fst acc,
                  length eyes)) as [H1 H2].
    split; [exact H1|]. rewrite H2. reflexivity.
Qed.

Lemma face_loop_drowsy_no_eyes gray faces d n :
  outcome (face_loop gray faces (true, 0%nat)) = Returned (d, n) ->
  d = true -> n = 0%nat.
Proof.
  intros H Hd. destruct (face_loop_result gray faces _ d n H) as [Hiff [Hnil Hlast]].
  destruct faces as [|f rest]; [apply Hnil; reflexivity|].
  destruct (Hlast f) as [eyes [He ->]]; [discriminate|].
  destruct (proj1 Hiff Hd) as [_ Hall].
  rewrite Forall_forall in Hall.
  assert (Hin : In (last (f :: rest) f) (f :: rest)).
  { clear. generalize f at 1 3. induction rest as [|g rest IH]; intro f0.
    - left. reflexivity.
    - right. apply (IH g). }
  rewrite (Hall _ Hin) in He. injection He as <-. reflexivity.
Qed.

Lemma detect_frame_drowsy_no_eyes gray n :
  outcome (detect_frame gray) = Returned (true, n) -> n = 0%nat.
Proof.
  unfold detect_frame. rewrite outcome_bind. unfold invoke. simpl.
  destruct (detectMultiScale face_cascade gray face_params) as [faces|e];
    [|discriminate].
  intro H. apply (face_loop_drowsy_no_eyes gray faces true n H). reflexivity.
Qed.


(** X5. On a frame the detection calls drowsy, the count of detected eyes is
    zero; so every alert pushed to Firebase during a session carries
    [eyes_detected = 0]. *)
Theorem alerts_are_pushed_with_no_eyes cfg inputs remaining frame_count s :
  (forall gray n, outcome (detect_frame gray) = Returned (true, n) -> n = 0%nat) /\
  (forall out n t,
     In out (frame_outputs
               (loop_events (detection_loop cfg inputs remaining frame_count s))) ->
     In (n, t) (pushed (effects out)) -> n = 0%nat).
Proof.
  split; [apply detect_frame_drowsy_no_eyes|].
  revert frame_count s.
  induction remaining as [|remaining' IH]; intros frame_count s out n t;
    [simpl; contradiction|].
  simpl.
  destruct (detection_running (inputs frame_count)); [|simpl; contradiction].
  destruct (ret (inputs frame_count)); [|simpl; contradiction].
  simpl.
  pose proof (detect_frame_drowsy_no_eyes (gray_frame (inputs frame_count)))
    as Hzero.
  destruct (detect_frame (gray_frame (inputs frame_count)))
    as [cs [[d n0]|e]]; [|simpl; contradiction].
  pose proof (frame_update_pushed cfg
                (mkObs d n0 (clock (inputs frame_count))) s) as Hp.
  pose proof (step_total_alerts cfg s
                (mkObs d n0 (clock (inputs frame_count)))) as Hle.
  pose proof (step_open cfg s (mkObs d n0 (clock (inputs frame_count)))) as Hopen.
  unfold step in Hp, Hle, Hopen.
  destruct (frame_update cfg (mkObs d n0 (clock (inputs frame_count))) s)
    as [s' out0].
  specialize (IH (S frame_count) s' out n t).
  destruct (detection_loop cfg inputs remaining' (S frame_count) s')
    as [[[ev s''] fc] exn].
  unfold loop_events in *. simpl in *.
  intros [<-|Hin] Hpush; [|apply IH; assumption].
  rewrite Hp in Hpush.
  destruct (FIREBASE_ENABLED cfg && (total_alerts s' =? S (total_alerts s))%nat)
    eqn:E; [|contradiction].
  destruct Hpush as [Heq|[]]. injection Heq as <- _.
  destruct d; [apply Hzero; reflexivity|].
  rewrite (Hopen eq_refl) in E. simpl in E.
  rewrite andb_true_iff, Nat.eqb_eq in E. lia.
Qed.

(* ================================================================= *)
(** ** The loop as a run of the drowsiness logic *)

Lemma detection_loop_is_run cfg inputs remaining : forall frame_count s,
  loop_state (detection_loop cfg inputs remaining frame_count s)
  = run cfg (observed inputs remaining frame_count) s /\
  map effects
      (frame_outputs (loop_events (detection_loop cfg inputs remaining
                                     frame_count s)))
  = run_effects cfg (observed inputs remaining frame_count) s /\
  loop_frame_count (detection_loop cfg inputs remaining frame_count s)
  = (frame_count + length (observed inputs remaining frame_count))%nat /\
  (length (observed inputs remaining frame_count) <= remaining)%nat.
Proof.
  induction remaining as [|remaining' IH]; intros frame_count s.
  - simpl. unfold loop_frame_count. simpl. repeat split; lia.
  - simpl.
    destruct (detection_running (inputs frame_count));
      [|unfold loop_frame_count; simpl; repeat split; lia].
    destruct (ret (inputs frame_count));
      [|unfold loop_frame_count; simpl; repeat split; lia].
    simpl.
    destruct (detect_frame (gray_frame (inputs frame_count)))
      as [cs [[d n]|e]];
      [|unfold loop_frame_count; simpl; repeat split; lia].
    simpl outcome. cbv iota beta.
    rewrite run_cons. simpl run_effects. unfold step.
    destruct (frame_update cfg (mkObs d n (clock (inputs frame_count))) s)
      as [s' out].
    destruct (IH (S frame_count) s') as [H1 [H2 [H3 H4]]].
    destruct (detection_loop cfg inputs remaining' (S frame_count) s')
      as [[[ev s''] fc] exn].
    unfold loop_state, loop_events, loop_frame_count in *. simpl in *.
    split; [exact H1|]. split; [rewrite H2; reflexivity|]. split; lia.
Qed.

(** X13. A session is a run of the drowsiness logic over the frames the loop
    observed before it stopped: the state it leaves, and what each frame
    emitted, are those of that run. A read failure or an exception of a
    cascade leaves the state of the last complete frame. A session whose
    camera did not open leaves the state as it was. *)
Theorem session_is_run_over_observed cfg inputs camera_index s :
  snd (main_detection cfg inputs camera_index true s)
  = run cfg (observed inputs max_frames 0) s /\
  map effects
      (frame_outputs (fst (main_detection cfg inputs camera_index true s)))
  = run_effects cfg (observed inputs max_frames 0) s /\
  (length (observed inputs max_frames 0) <= max_frames)%nat /\
  snd (main_detection cfg inputs camera_index false s) = s /\
  frame_outputs (fst (main_detection cfg inputs camera_index false s)) = [].
Proof.
  destruct (detection_loop_is_run cfg inputs max_frames 0 s)
    as [H1 [H2 [_ H4]]].
  unfold main_detection. simpl negb. cbv iota.
  destruct (detection_loop cfg inputs max_frames 0 s) as [[[ev s'] fc] exn].
  unfold loop_state, loop_events in *. cbn [fst snd] in *.
  split; [exact H1|]. split; [|split; [exact H4|split; reflexivity]].
  rewrite <- H2. unfold frame_outputs.
  destruct exn; destruct (max_frames <=? fc)%nat;
    cbn [app flat_map]; rewrite flat_map_app; cbn [app flat_map];
    rewrite app_nil_r; reflexivity.
Qed.


(* ================================================================= *)
(** ** How a session ends *)

Lemma detection_loop_exit cfg inputs remaining : forall frame_count s,
  let l := detection_loop cfg inputs remaining frame_count s in
  let k := length (observed inputs remaining frame_count) in
  let it := inputs (frame_count + k)%nat in
  (forall i, (i < k)%nat ->
     detection_running (inputs (frame_count + i)%nat) = true /\
     ret (inputs (frame_count + i)%nat) = true /\
     exists d n,
       outcome (detect_frame (gray_frame (inputs (frame_count + i)%nat)))
       = Returned (d, n)) /\
  (forall e, loop_exception l = Some e <->
     (k < remaining)%nat /\ detection_running it = true /\ ret it = true /\
     outcome (detect_frame (gray_frame it)) = Raised e) /\
  (In (StError FailedToReadFromCamera) (loop_events l) <->
     (k < remaining)%nat /\ detection_running it = true /\ ret it = false) /\
  (forall m, In (StError m) (loop_events l) -> m = FailedToReadFromCamera) /\
  ~ In Rerun (loop_events l) /\
  length (filter is_read (loop_events l))
  = (if (k <? remaining)%nat && detection_running it then S k else k).
Proof.
  induction remaining as [|remaining' IH]; intros frame_count s; cbv zeta.
  - simpl. unfold loop_exception, loop_events. simpl.
    split; [intros i Hi; lia|].
    split; [intro e; split; [discriminate|intros [H _]; lia]|].
    split; [split; [contradiction|intros [H _]; lia]|].
    split; [contradiction|]. split; [tauto|reflexivity].
  - simpl.
    destruct (detection_running (inputs frame_count)) eqn:Hrun.
    + destruct (ret (inputs frame_count)) eqn:Hret.
      * simpl.
        destruct (detect_frame (gray_frame (inputs frame_count)))
          as [cs [[d n]|e0]] eqn:Hdet.
        -- simpl outcome. cbv iota beta.
           destruct (frame_update cfg (mkObs d n (clock (inputs frame_count))) s)
             as [s' out].
           specialize (IH (S frame_count) s'). cbv zeta in IH.
           destruct (detection_loop cfg inputs remaining' (S frame_count) s')
             as [[[ev s''] fc] exn].
           unfold loop_exception, loop_events in *. cbn [fst snd] in *.
           cbn [length].
           set (k := length (observed inputs remaining' (S frame_count))) in *.
           replace (frame_count + S k)%nat with (S frame_count + k)%nat by lia.
           destruct IH as [Hall [Hexn [Hfail [Herr [Hrerun Hreads]]]]].
           split; [|split; [|split; [|split; [|split]]]].
           ++ intros [|i] Hi.
              ** rewrite Nat.add_0_r, Hrun, Hret, Hdet.
                 repeat split. exists d, n. reflexivity.
              ** replace (frame_count + S i)%nat with (S frame_count + i)%nat
                   by lia.
                 apply Hall. lia.
           ++ intro e. rewrite Hexn. split; intros [H1 H2]; (split; [lia|exact H2]).
           ++ split.
              ** intros [H|[H|H]]; try discriminate H.
                 apply Hfail in H. destruct H as [H1 H2]. split; [lia|exact H2].
              ** intros [H1 H2]. right. right. apply Hfail. split; [lia|exact H2].
           ++ intros m [H|[H|H]]; try discriminate H. apply Herr. exact H.
           ++ intros [H|[H|H]]; try discriminate H. apply Hrerun. exact H.
           ++ cbn [filter is_read length]. rewrite Hreads.
              change (S k <? S remaining')%nat with (k <? remaining')%nat.
              destruct ((k <? remaining')%nat
                        && detection_running (inputs (S frame_count + k)%nat));
                reflexivity.
        -- simpl outcome. cbv iota beta.
           unfold loop_exception, loop_events. cbn [fst snd length].
           rewrite Nat.add_0_r, Hrun, Hret, Hdet. simpl outcome.
           split; [intros i Hi; lia|].
           split.
           { intro e. split.
             - intro H. injection H as <-. repeat split. lia.
             - intros [_ [_ [_ H]]]. injection H as <-. reflexivity. }
           split.
           { split.
             - intros [H|[H|H]]; try discriminate H. contradiction.
             - intros [_ [_ H]]. discriminate H. }
           split; [intros m [H|[H|H]]; try discriminate H; contradiction|].
           split; [intros [H|[H|H]]; try discriminate H; contradiction|].
           reflexivity.
      * simpl. unfold loop_exception, loop_events. cbn [fst snd length].
        rewrite Nat.add_0_r, Hrun, Hret.
        split; [intros i Hi; lia|].
        split.
        { intro e. split; [discriminate|]. intros [_ [_ [H _]]]. discriminate H. }
        split.
        { split; [intros _; repeat split; lia|].
          intros _. right. left. reflexivity. }
        split.
        { intros m [H|[H|H]]; try discriminate H; try contradiction.
          injection H as <-. reflexivity. }
        split; [intros [H|[H|H]]; try discriminate H; contradiction|].
        reflexivity.
    + simpl. unfold loop_exception, loop_events. cbn [fst snd length].
      rewrite Nat.add_0_r, Hrun.
      split; [intros i Hi; lia|].
      split.
      { intro e. split; [discriminate|]. intros [_ [H _]]. discriminate H. }
      split.
      { split; [contradiction|]. intros [_ [H _]]. discriminate H. }
      split; [contradiction|]. split; [tauto|reflexivity].
Qed.


Lemma max_frames_succ : max_frames = S 499.
Proof. reflexivity. Qed.

Lemma detection_loop_step cfg inputs remaining' frame_count s :
  detection_loop cfg inputs (S remaining') frame_count s
  = let it := inputs frame_count in
    if negb (detection_running it) then ([], s, frame_count, None)
    else if negb (ret it) then
      ([CapRead; StError FailedToReadFromCamera], s, frame_count, None)
    else
      match detect_frame (gray_frame it) with
      | (cs, Raised e) => ([CapRead; Fault cs], s, frame_count, Some e)
      | (cs, Returned (d, n)) =>
          let (s', out) := frame_update cfg (mkObs d n (clock it)) s in
          let '(ev, s'', fc, exn) :=
            detection_loop cfg inputs remaining' (S frame_count) s' in
          (CapRead :: Frame cs out :: ev, s'', fc, exn)
      end.
Proof. reflexivity. Qed.

(* The frame limit is a number the proofs below never look into. *)
Local Opaque max_frames.

Lemma main_detection_events cfg inputs camera_index s :
  fst (main_detection cfg inputs camera_index true s)
  = [VideoCapture camera_index; CapSet; StSuccess]
    ++ loop_events (detection_loop cfg inputs max_frames 0 s)
    ++ match loop_exception (detection_loop cfg inputs max_frames 0 s) with
       | Some e => [StError (ErrorDuringDetection e)]
       | None => []
       end
    ++ [CapRelease; DestroyAllWindows; SetDetectionRunning false; StInfo]
    ++ (if (max_frames
            <=? loop_frame_count (detection_loop cfg inputs max_frames 0 s))%nat
        then [Rerun] else []).
Proof.
  unfold main_detection. simpl negb. cbv iota.
  destruct (detection_loop cfg inputs max_frames 0 s) as [[[ev s'] fc] exn].
  reflexivity.
Qed.

(** X14. How a session with an open camera ends. With [k] the number of frames
    it processed: every iteration before [k] found the flag set, read a
    frame and detected without exception; the session asks for a rerun
    exactly when it processed all [max_frames] frames; it reports a read
    failure exactly when iteration [k] failed to read, and an error during
    detection exactly when a cascade raised in iteration [k], with that
    exception's text; it reads the camera [k] times, and once more when
    iteration [k] got past the stop flag, never more than [max_frames]
    times. *)
Theorem session_exits cfg inputs camera_index s :
  let ev := fst (main_detection cfg inputs camera_index true s) in
  let k := length (observed inputs max_frames 0) in
  let it := inputs k in
  (forall i, (i < k)%nat ->
     detection_running (inputs i) = true /\ ret (inputs i) = true /\
     exists d n,
       outcome (detect_frame (gray_frame (inputs i))) = Returned (d, n)) /\
  (In Rerun ev <-> k = max_frames) /\
  (In (StError FailedToReadFromCamera) ev <->
     (k < max_frames)%nat /\ detection_running it = true /\ ret it = false) /\
  (forall e, In (StError (ErrorDuringDetection e)) ev <->
     (k < max_frames)%nat /\ detection_running it = true /\ ret it = true /\
     outcome (detect_frame (gray_frame it)) = Raised e) /\
  length (filter is_read ev)
  = (if (k <? max_frames)%nat && detection_running it then S k else k) /\
  (length (filter is_read ev) <= max_frames)%nat.
Proof.
  cbv zeta. rewrite main_detection_events.
  pose proof (detection_loop_exit cfg inputs max_frames 0 s) as Hexit.
  destruct (detection_loop_is_run cfg inputs max_frames 0 s)
    as [_ [_ [Hfc Hk]]].
  cbv zeta in Hexit. simpl Nat.add in Hexit, Hfc.
  destruct Hexit as [Hall [Hexn [Hfail [Herr [Hrerun Hreads]]]]].
  set (l := detection_loop cfg inputs max_frames 0 s) in *.
  set (k := length (observed inputs max_frames 0)) in *.
  rewrite Hfc. clearbody l k.
  assert (Hreads' :
            length (filter is_read
              ([VideoCapture camera_index; CapSet; StSuccess]
               ++ loop_events l
               ++ match loop_exception l with
                  | Some e => [StError (ErrorDuringDetection e)]
                  | None => []
                  end
               ++ [CapRelease; DestroyAllWindows; SetDetectionRunning false;
                   StInfo]
               ++ (if (max_frames <=? k)%nat then [Rerun] else [])))
            = length (filter is_read (loop_events l))).
  { rewrite !filter_app, !length_app.
    destruct (loop_exception l); destruct (max_frames <=? k)%nat; simpl; lia. }
  split; [exact Hall|]. split; [|split; [|split; [|split]]].
  - rewrite !in_app_iff. split.
    + intros [H|[H|[H|[H|H]]]].
      * simpl in H. destruct H as [H|[H|[H|[]]]]; discriminate H.
      * contradiction.
      * destruct (loop_exception l); simpl in H;
          [destruct H as [H|[]]; discriminate H|contradiction].
      * simpl in H. destruct H as [H|[H|[H|[H|[]]]]]; discriminate H.
      * destruct (max_frames <=? k)%nat eqn:E; [|contradiction].
        apply Nat.leb_le in E. lia.
    + intros ->. do 4 right. rewrite Nat.leb_refl. left. reflexivity.
  - rewrite !in_app_iff. rewrite <- Hfail. split.
    + intros [H|[H|[H|[H|H]]]].
      * simpl in H. destruct H as [H|[H|[H|[]]]]; discriminate H.
      * exact H.
      * destruct (loop_exception l); simpl in H;
          [destruct H as [H|[]]; discriminate H|contradiction].
      * simpl in H. destruct H as [H|[H|[H|[H|[]]]]]; discriminate H.
      * destruct (max_frames <=? k)%nat; simpl in H;
          [destruct H as [H|[]]; discriminate H|contradiction].
    + intro H. right. left. exact H.
  - intro e. rewrite !in_app_iff. rewrite <- Hexn. split.
    + intros [H|[H|[H|[H|H]]]].
      * simpl in H. destruct H as [H|[H|[H|[]]]]; discriminate H.
      * apply Herr in H. discriminate H.
      * destruct (loop_exception l); simpl in H; [|contradiction].
        destruct H as [H|[]]. injection H as <-. reflexivity.
      * simpl in H. destruct H as [H|[H|[H|[H|[]]]]]; discriminate H.
      * destruct (max_frames <=? k)%nat; simpl in H;
          [destruct H as [H|[]]; discriminate H|contradiction].
    + intro H. right. right. left. rewrite H. left. reflexivity.
  - rewrite Hreads'. exact Hreads.
  - rewrite Hreads', Hreads.
    destruct (k <? max_frames)%nat eqn:E; simpl.
    + apply Nat.ltb_lt in E. destruct (detection_running (inputs k)); lia.
    + exact Hk.
Qed.

(** X15. The timer of an interrupted episode outlives the session: a session
    that starts with [closed_start] still set from an earlier one and
    finds the eyes closed on its first frame compares against the old
    timestamp, and alerts on that very frame when the threshold has
    passed since. *)
Theorem stale_timer_alerts_on_first_frame cfg inputs camera_index s t0 n :
  closed_start s = Some t0 -> alarm_on s = false ->
  detection_running (inputs 0%nat) = true -> ret (inputs 0%nat) = true ->
  outcome (detect_frame (gray_frame (inputs 0%nat))) = Returned (true, n) ->
  sensitivity cfg < clock (inputs 0%nat) - t0 ->
  exists out rest,
    frame_outputs (fst (main_detection cfg inputs camera_index true s))
    = out :: rest /\
    current_status out = ALERT /\
    alert_count_metric out = S (total_alerts s).
Proof.
  intros Hc Ha Hrun Hret Hdet Hlt.
  rewrite main_detection_events, max_frames_succ, detection_loop_step.
  cbv zeta. rewrite Hrun, Hret. simpl negb. cbv iota.
  destruct (detect_frame (gray_frame (inputs 0%nat))) as [cs o].
  simpl in Hdet. subst o.
  pose proof (step_fire cfg s (mkObs true n (clock (inputs 0%nat))) t0
                eq_refl Hc Hlt Ha) as Hstep.
  pose proof (frame_update_alert cfg (mkObs true n (clock (inputs 0%nat))) s)
    as Hst.
  destruct Hst as [Hst _].
  assert (Hmetric : alert_count_metric
                      (snd (frame_update cfg
                              (mkObs true n (clock (inputs 0%nat))) s))
                    = total_alerts
                        (fst (frame_update cfg
                                (mkObs true n (clock (inputs 0%nat))) s))).
  { unfold frame_update.
    destruct (drowsiness_logic cfg (mkObs true n (clock (inputs 0%nat))) s)
      as [[s1 st] eff]. reflexivity. }
  unfold step in Hstep.
  destruct (frame_update cfg (mkObs true n (clock (inputs 0%nat))) s)
    as [s' out].
  cbn [fst snd] in *.
  destruct (detection_loop cfg inputs 499 1 s') as [[[ev s''] fc] exn].
  unfold loop_events. cbn [fst snd app]. unfold frame_outputs.
  cbn [flat_map app].
  eexists out, _. split; [reflexivity|]. split.
  - apply Hst. split; [reflexivity|]. exists t0. split; [exact Hc|exact Hlt].
  - rewrite Hmetric, Hstep. reflexivity.
Qed.


(* ================================================================= *)
(** ** Runs of the script *)

Lemma session_state_init_store ss : session_state_init (store ss) = ss.
Proof. destruct ss as [[c a n pl] b]. reflexivity. Qed.

Lemma main_detection_state cfg inputs camera_index opened s :
  snd (main_detection cfg inputs camera_index opened s)
  = if opened then run cfg (observed inputs max_frames 0) s else s.
Proof.
  destruct opened; [|reflexivity].
  destruct (detection_loop_is_run cfg inputs max_frames 0 s) as [H _].
  unfold main_detection. simpl negb. cbv iota.
  destruct (detection_loop cfg inputs max_frames 0 s) as [[[ev s'] fc] exn].
  exact H.
Qed.

Lemma final_running_app l1 l2 b :
  final_running (l1 ++ l2) b = final_running l2 (final_running l1 b).
Proof. unfold final_running. apply fold_left_app. Qed.

Lemma main_detection_clears_running cfg inputs camera_index opened s b :
  final_running (fst (main_detection cfg inputs camera_index opened s)) b
  = false.
Proof.
  destruct opened; [|reflexivity].
  rewrite main_detection_events, !final_running_app.
  destruct (max_frames
            <=? loop_frame_count (detection_loop cfg inputs max_frames 0 s))%nat;
    reflexivity.
Qed.

Lemma script_run_total_alerts p r :
  (total_alerts (drowsiness (session_state_init r))
   <= total_alerts (drowsiness (session_state_init (fst (fst (script_run p r))))))%nat.
Proof.
  unfold script_run.
  destruct (reset_btn p); [simpl; lia|].
  destruct (start_btn p); [simpl; lia|].
  destruct (stop_btn p); [simpl; lia|].
  destruct (running (session_state_init r));
    [|cbn [fst]; rewrite session_state_init_store; lia].
  pose proof (main_detection_state (settings_of p) (loop_inputs p)
                (camera_index_select p) (cap_isOpened p)
                (drowsiness (session_state_init r))) as Hs.
  destruct (main_detection (settings_of p) (loop_inputs p)
              (camera_index_select p) (cap_isOpened p)
              (drowsiness (session_state_init r))) as [ev s'].
  cbn [fst snd] in *. rewrite session_state_init_store. cbn [drowsiness].
  rewrite Hs. destruct (cap_isOpened p); [apply run_total_alerts_le|lia].
Qed.

Lemma script_run_drowsiness p r :
  drowsiness (session_state_init (fst (fst (script_run p r))))
  = run_with (frames_of_run p r) (drowsiness (session_state_init r)).
Proof.
  unfold script_run, frames_of_run.
  destruct (reset_btn p); [reflexivity|].
  destruct (start_btn p); [reflexivity|].
  destruct (stop_btn p); [reflexivity|].
  cbn [orb].
  destruct (running (session_state_init r));
    [|cbn [fst andb]; rewrite session_state_init_store; reflexivity].
  pose proof (main_detection_state (settings_of p) (loop_inputs p)
                (camera_index_select p) (cap_isOpened p)
                (drowsiness (session_state_init r))) as Hs.
  destruct (main_detection (settings_of p) (loop_inputs p)
              (camera_index_select p) (cap_isOpened p)
              (drowsiness (session_state_init r))) as [ev s'].
  cbn [fst snd andb] in *. rewrite session_state_init_store. cbn [drowsiness].
  rewrite Hs. destruct (cap_isOpened p); [|reflexivity].
  symmetry. apply run_with_map.
Qed.

(** The state successive runs of the script leave is the per-frame update
    along their frames, each under the settings of its run. *)
Lemma script_runs_history ps : forall r,
  drowsiness (session_state_init (script_runs ps r))
  = run_with (script_history ps r) (drowsiness (session_state_init r)).
Proof.
  induction ps as [|p ps IH]; intro r; [reflexivity|].
  unfold script_runs in *. simpl fold_left. simpl script_history.
  rewrite run_with_app, IH, script_run_drowsiness. reflexivity.
Qed.

(** So what holds along every history holds after any runs of the script
    from an empty session state: an alert that is on has its timer set,
    and was fired by a frame past the threshold of its run. *)
Lemma script_alarm_was_fired ps :
  alarm_on (drowsiness (session_state_init (script_runs ps empty_session)))
  = true ->
  exists t0,
    closed_start (drowsiness (session_state_init (script_runs ps empty_session)))
    = Some t0 /\
    exists f, In f (script_history ps empty_session)
              /\ sensitivity (fst f) < now (snd f) - t0.
Proof.
  rewrite script_runs_history. apply run_with_alarm_was_fired.
Qed.

(** X16. Nothing in the script resets the alert counter: over any succession
    of runs of the script, whatever is pressed and whatever the camera
    does, the counter the page shows never goes down. *)
Theorem total_alerts_is_never_reset ps r :
  (total_alerts (drowsiness (session_state_init r))
   <= total_alerts (drowsiness (session_state_init (script_runs ps r))))%nat.
Proof.
  revert r. induction ps as [|p ps IH]; intro r; [simpl; lia|].
  unfold script_runs in *. simpl fold_left.
  pose proof (script_run_total_alerts p r) as H1.
  specialize (IH (fst (fst (script_run p r)))). lia.
Qed.

(** X17. A run in which a button is pressed only sets [detection_running] and
    asks for a rerun: it leaves the timer, the alert flags and the counter
    as they were, processes no frame and does not touch the camera. Reset
    is tested first, then Start, then Stop: the flag ends up set exactly
    when Start is pressed and Reset is not. *)
Theorem buttons_only_set_detection_running p r :
  reset_btn p || start_btn p || stop_btn p = true ->
  drowsiness (session_state_init (fst (fst (script_run p r))))
  = drowsiness (session_state_init r) /\
  running (session_state_init (fst (fst (script_run p r))))
  = negb (reset_btn p) && start_btn p /\
  snd (script_run p r) = true /\
  snd (fst (script_run p r))
  = [SetDetectionRunning (negb (reset_btn p) && start_btn p); Rerun].
Proof.
  unfold script_run.
  destruct (reset_btn p); [intros _; repeat split|].
  destruct (start_btn p); [intros _; repeat split|].
  destruct (stop_btn p); [intros _; repeat split|].
  simpl. discriminate.
Qed.

(** X18. Detection never carries over from one run to the next: a run in which
    no button is pressed ends with [detection_running] cleared, whether it
    ran the loop or not and also when it ended by asking for a rerun at
    the frame limit; so the run after it, unless a button is pressed, does
    nothing at all. A run that finds the flag cleared and no button
    pressed leaves everything as it is. *)
Theorem detection_needs_a_fresh_start p r :
  reset_btn p = false -> start_btn p = false -> stop_btn p = false ->
  running (session_state_init (fst (fst (script_run p r)))) = false /\
  (running (session_state_init r) = false ->
   script_run p r = (store (session_state_init r), [], false)) /\
  (forall p2,
     reset_btn p2 = false -> start_btn p2 = false -> stop_btn p2 = false ->
     script_run p2 (fst (fst (script_run p r)))
     = (fst (fst (script_run p r)), [], false)).
Proof.
  intros Hr Hs Ht.
  assert (Hidle : forall p' ss,
            reset_btn p' = false -> start_btn p' = false ->
            stop_btn p' = false -> running ss = false ->
            script_run p' (store ss) = (store ss, [], false)).
  { intros p' ss H1 H2 H3 H4. unfold script_run.
    rewrite H1, H2, H3, session_state_init_store, H4. reflexivity. }
  assert (Hform : exists ss, fst (fst (script_run p r)) = store ss
                             /\ running ss = false).
  { unfold script_run. rewrite Hr, Hs, Ht.
    destruct (running (session_state_init r)) eqn:Hrun.
    - pose proof (main_detection_clears_running (settings_of p) (loop_inputs p)
                    (camera_index_select p) (cap_isOpened p)
                    (drowsiness (session_state_init r)) true) as Hclr.
      destruct (main_detection (settings_of p) (loop_inputs p)
                  (camera_index_select p) (cap_isOpened p)
                  (drowsiness (session_state_init r))) as [ev s'].
      cbn [fst] in *. eexists. split; [reflexivity|]. exact Hclr.
    - exists (session_state_init r). split; [reflexivity|exact Hrun]. }
  destruct Hform as [ss [E Hoff]].
  split; [rewrite E, session_state_init_store; exact Hoff|]. split.
  - intro Hrun. unfold script_run. rewrite Hr, Hs, Ht, Hrun. reflexivity.
  - intros p2 H1 H2 H3. rewrite E. apply Hidle; assumption.
Qed.


(* ================================================================= *)
(** ** The label against the alert, the faces against their order *)

(** X7. In a history from the initial state whose clock does not step
    back and whose threshold is not raised on the way, over any number of
    sessions, the frames labelled as alert are exactly the frames that
    end with [alarm_on] set. *)
Theorem status_is_alarm_in_steady_history frames cfg o :
  monotone_history (frames ++ [(cfg, o)]) ->
  threshold_not_raised cfg frames ->
  (current_status (snd (frame_update cfg o (run_with frames initial_state)))
   = ALERT
   <-> alarm_on (run_with (frames ++ [(cfg, o)]) initial_state) = true).
Proof.
  intros Hm Hthr.
  destruct (frame_update_alert cfg o (run_with frames initial_state))
    as [Hiff Hon].
  assert (Hrun : run_with (frames ++ [(cfg, o)]) initial_state
                 = step cfg (run_with frames initial_state) o)
    by (rewrite run_with_app; reflexivity).
  split; [rewrite Hrun; exact Hon|].
  intro Hal. apply Hiff.
  destruct (run_with_alarm_exceeded frames cfg o Hm Hthr Hal) as [t0 [Hc Hlt]].
  rewrite Hrun in Hc, Hal. rewrite step_closed_start in Hc.
  destruct (drowsy o) eqn:Hd.
  - split; [reflexivity|].
    destruct (closed_start (run_with frames initial_state)) as [t1|] eqn:Hc1.
    + injection Hc as <-. exists t1. split; [reflexivity|exact Hlt].
    + exfalso.
      rewrite (step_start cfg _ o Hd Hc1) in Hal. simpl in Hal.
      apply (run_with_alarm_has_timer frames initial_state);
        [|exact Hal|exact Hc1].
      simpl. discriminate.
  - discriminate Hc.
Qed.

Lemma face_loop_returned_all gray faces : forall acc d n,
  outcome (face_loop gray faces acc) = Returned (d, n) ->
  Forall (fun f => exists eyes, eyes_of gray f = Returned eyes) faces.
Proof.
  induction faces as [|f rest IH]; intros acc d n H; [constructor|].
  rewrite face_loop_cons in H.
  destruct (eyes_of gray f) as [eyes|e] eqn:He; [|discriminate].
  constructor; [exists eyes; exact He|]. eapply IH. exact H.
Qed.

(** X4. The drowsy verdict of a frame does not depend on the order in which
    the face cascade lists the faces: when the loop returns on the faces
    in one order, it returns on any other order with the same verdict.
    (The eyes-detected count does depend on it.) *)
Theorem drowsy_ignores_face_order gray faces faces' d n :
  Permutation faces faces' ->
  outcome (face_loop gray faces (true, 0%nat)) = Returned (d, n) ->
  exists n', outcome (face_loop gray faces' (true, 0%nat)) = Returned (d, n').
Proof.
  intros Hperm H.
  pose proof (face_loop_returned_all gray faces _ d n H) as Hall.
  assert (Hall' : Forall (fun f => exists eyes, eyes_of gray f = Returned eyes)
                         faces')
    by (eapply Permutation_Forall; eassumption).
  destruct (face_loop_returns gray faces' (true, 0%nat) Hall') as [d' [n' H']].
  exists n'. rewrite H'. f_equal. f_equal.
  destruct (face_loop_result gray faces _ d n H) as [Hd _].
  destruct (face_loop_result gray faces' _ d' n' H') as [Hd' _].
  cbn [fst] in Hd, Hd'.
  destruct d, d'; try reflexivity.
  - destruct (proj1 Hd eq_refl) as [_ Hno].
    assert (E : false = true); [|discriminate E].
    apply Hd'. split; [reflexivity|].
    eapply Permutation_Forall; eassumption.
  - destruct (proj1 Hd' eq_refl) as [_ Hno].
    assert (E : false = true); [|discriminate E].
    apply Hd. split; [reflexivity|].
    eapply Permutation_Forall; [apply Permutation_sym|]; eassumption.
Qed.

End Script.

(* ================================================================= *)
(** ** The properties on the scripted cascades *)

Lemma drowsy_iff_no_face_has_eyes_witness :
  scripted_cascade face_cascade frame_left_open face_params
  = Returned [mkRegion 0 0 2 2; mkRegion 2 0 2 2] /\
  outcome (detect_frame scripted_cascade 2 frame_left_open)
  = Returned (false, 0%nat).
Proof.
  assert (H : scripted_cascade face_cascade frame_left_open face_params
              = Returned [mkRegion 0 0 2 2; mkRegion 2 0 2 2]) by reflexivity.
  split; [exact H|].
  destruct (drowsy_iff_no_face_has_eyes scripted_cascade 2 frame_left_open _ H)
    as [_ [_ [_ [Htwo _]]]].
  apply (Htwo (mkRegion 0 0 2 2) (mkRegion 2 0 2 2) [mkRegion 0 0 1 1]);
    [reflexivity|reflexivity|discriminate|reflexivity].
Defined.

(** C4 as stated fails on the scale step: the lenient pass does not use a
    coarser step than the strict pass. *)
Lemma lenient_scale_step_not_coarser :
  ~ scaleFactor (strict_params 2) < scaleFactor (lenient_params 2).
Proof. simpl. lra. Qed.

(** The strict pass misses the faint eye, the lenient pass finds it, and
    the frame counts as eyes open. *)
Lemma two_pass_eye_detection_witness :
  let roi := crop frame_left_faint (mkRegion 0 0 2 2) in
  scripted_cascade eye_cascade roi (strict_params 2) = Returned [] /\
  scripted_cascade eye_cascade roi (lenient_params 2)
  = Returned [mkRegion 0 0 1 1] /\
  map call_params (calls (detect_eyes scripted_cascade 2 roi))
  = [strict_params 2; lenient_params 2] /\
  outcome (detect_eyes scripted_cascade 2 roi) = Returned [mkRegion 0 0 1 1] /\
  outcome (face_loop scripted_cascade 2 frame_left_faint [mkRegion 0 0 2 2]
             (true, 0%nat))
  = Returned (false, 1%nat).
Proof.
  intro roi.
  assert (Hs : scripted_cascade eye_cascade roi (strict_params 2) = Returned [])
    by reflexivity.
  assert (Hl : scripted_cascade eye_cascade roi (lenient_params 2)
               = Returned [mkRegion 0 0 1 1]) by reflexivity.
  split; [exact Hs|]. split; [exact Hl|].
  destruct (two_pass_eye_detection scripted_cascade 2 roi)
    as [Hcalls [_ [Hout [_ [_ [_ [_ [_ [_ [_ [_ Hopen]]]]]]]]]]].
  split; [rewrite Hcalls, Hs; reflexivity|].
  split; [rewrite Hout, Hs; exact Hl|].
  apply (Hopen frame_left_faint (mkRegion 0 0 2 2) [mkRegion 0 0 1 1]
               eq_refl Hs Hl).
  discriminate.
Defined.

(** The strict pass finds the eye and the cascade is not invoked again. *)
Example strict_pass_suffices :
  map call_params
      (calls (detect_eyes scripted_cascade 2
                (crop frame_left_open (mkRegion 0 0 2 2))))
  = [strict_params 2].
Proof. reflexivity. Qed.

Lemma eyes_detected_is_last_face_witness :
  scripted_cascade face_cascade frame_left_open face_params
  = Returned ([mkRegion 0 0 2 2] ++ [mkRegion 2 0 2 2]) /\
  outcome (detect_frame scripted_cascade 2 frame_left_open)
  = Returned (false, 0%nat) /\
  exists eyes,
    eyes_of scripted_cascade 2 frame_left_open (mkRegion 2 0 2 2)
    = Returned eyes /\ 0%nat = length eyes.
Proof.
  assert (H1 : scripted_cascade face_cascade frame_left_open face_params
               = Returned ([mkRegion 0 0 2 2] ++ [mkRegion 2 0 2 2]))
    by reflexivity.
  assert (H2 : outcome (detect_frame scripted_cascade 2 frame_left_open)
               = Returned (false, 0%nat)) by reflexivity.
  split; [exact H1|]. split; [exact H2|].
  exact (proj1 (eyes_detected_is_last_face scripted_cascade 2 frame_left_open
                  [mkRegion 0 0 2 2] (mkRegion 2 0 2 2) false 0%nat H1 H2)).
Defined.

(** C6 as stated fails for a session whose camera does not open: no
    release is performed. *)
Lemma failed_open_is_not_released :
  releases (fst (main_detection scripted_cascade 2 demo_settings
                   steady_inputs 0 false initial_state)) <> 1%nat.
Proof. vm_compute. discriminate. Qed.

(** The exits of the loop, on the scripted environments: each ends with
    the one release. *)

Example read_failure_releases :
  without_frames (fst (main_detection scripted_cascade 2 demo_settings
                         read_failure_inputs 0 true initial_state))
  = [VideoCapture 0; CapSet; StSuccess; CapRead; CapRead; CapRead;
     StError FailedToReadFromCamera;
     CapRelease; DestroyAllWindows; SetDetectionRunning false; StInfo].
Proof. vm_compute. reflexivity. Qed.

Example cascade_fault_releases :
  without_frames (fst (main_detection scripted_cascade 2 demo_settings
                         fault_inputs 0 true initial_state))
  = [VideoCapture 0; CapSet; StSuccess; CapRead; CapRead; CapRead;
     StError (ErrorDuringDetection "empty image");
     CapRelease; DestroyAllWindows; SetDetectionRunning false; StInfo].
Proof. vm_compute. reflexivity. Qed.

Example stop_flag_releases :
  without_frames (fst (main_detection scripted_cascade 2 demo_settings
                         stopped_inputs 0 true initial_state))
  = [VideoCapture 0; CapSet; StSuccess; CapRead; CapRead;
     CapRelease; DestroyAllWindows; SetDetectionRunning false; StInfo].
Proof. vm_compute. reflexivity. Qed.

Example frame_limit_releases_and_reruns :
  let ev := fst (main_detection scripted_cascade 2 demo_settings
                   steady_inputs 0 true initial_state) in
  length (filter is_read ev) = max_frames /\
  releases ev = 1%nat /\
  last ev StInfo = Rerun.
Proof. vm_compute. repeat split. Qed.

(** The second of three faces lies below the frame, its region of
    interest is empty and the cascade raises on it: the third face is not
    examined. *)
Lemma face_loop_stops_at_fault_witness :
  Forall (fun f' => exists eyes,
            eyes_of scripted_cascade 2 frame_left_open f' = Returned eyes)
         [mkRegion 0 0 2 2] /\
  eyes_of scripted_cascade 2 frame_left_open (mkRegion 0 5 2 2)
  = Raised "empty image"%string /\
  outcome (face_loop scripted_cascade 2 frame_left_open
             ([mkRegion 0 0 2 2] ++ mkRegion 0 5 2 2 :: [mkRegion 2 0 2 2])
             (true, 0%nat))
  = Raised "empty image"%string /\
  length (calls (face_loop scripted_cascade 2 frame_left_open
                   ([mkRegion 0 0 2 2] ++ mkRegion 0 5 2 2 :: [mkRegion 2 0 2 2])
                   (true, 0%nat))) = 2%nat.
Proof.
  assert (H1 : Forall (fun f' => exists eyes,
                         eyes_of scripted_cascade 2 frame_left_open f'
                         = Returned eyes) [mkRegion 0 0 2 2]).
  { constructor; [|constructor]. eexists. reflexivity. }
  assert (H2 : eyes_of scripted_cascade 2 frame_left_open (mkRegion 0 5 2 2)
               = Raised "empty image"%string) by reflexivity.
  split; [exact H1|]. split; [exact H2|].
  destruct (face_loop_stops_at_fault scripted_cascade 2 frame_left_open
              [mkRegion 0 0 2 2] (mkRegion 0 5 2 2) [mkRegion 2 0 2 2]
              (true, 0%nat) "empty image"%string H1 H2) as [Hout Hcalls].
  split; [exact Hout|]. rewrite Hcalls. reflexivity.
Defined.

(** A session stopped with the eyes closed leaves its timer set; the next
    one, a hundred seconds later, alerts on its first frame. *)
Lemma stale_timer_alerts_on_first_frame_witness :
  let s := snd (main_detection scripted_cascade 2 demo_settings stopped_inputs
                  0 true initial_state) in
  closed_start s = Some (tick 0) /\ alarm_on s = false /\
  exists out rest,
    frame_outputs (fst (main_detection scripted_cascade 2 demo_settings
                          resumed_inputs 0 true s))
    = out :: rest /\
    current_status out = ALERT /\
    alert_count_metric out = S (total_alerts s).
Proof.
  intro s.
  assert (H1 : closed_start s = Some (tick 0)) by (vm_compute; reflexivity).
  assert (H2 : alarm_on s = false) by (vm_compute; reflexivity).
  split; [exact H1|]. split; [exact H2|].
  apply (stale_timer_alerts_on_first_frame scripted_cascade 2 demo_settings
           resumed_inputs 0%nat s (tick 0) 0%nat H1 H2);
    try reflexivity.
Defined.

Lemma buttons_only_set_detection_running_witness :
  reset_btn start_page || start_btn start_page || stop_btn start_page = true /\
  running (session_state_init
             (fst (fst (script_run scripted_cascade 2 start_page empty_session))))
  = true /\
  drowsiness (session_state_init
                (fst (fst (script_run scripted_cascade 2 start_page
                             empty_session))))
  = initial_state.
Proof.
  assert (H : reset_btn start_page || start_btn start_page
              || stop_btn start_page = true) by reflexivity.
  split; [exact H|].
  destruct (buttons_only_set_detection_running scripted_cascade 2 start_page
              empty_session H) as [Hd [Hr _]].
  split; [rewrite Hr; reflexivity|rewrite Hd; reflexivity].
Defined.

(** Start, then a run that processes frames until the stop flag: the flag
    is cleared, and the run after it does nothing. *)
Lemma detection_needs_a_fresh_start_witness :
  let started := fst (fst (script_run scripted_cascade 2 start_page
                             empty_session)) in
  let p := idle_page stopped_inputs in
  reset_btn p = false /\ start_btn p = false /\ stop_btn p = false /\
  running (session_state_init
             (fst (fst (script_run scripted_cascade 2 p started)))) = false /\
  snd (fst (script_run scripted_cascade 2 p
              (fst (fst (script_run scripted_cascade 2 p started))))) = [].
Proof.
  intros started p.
  assert (H1 : reset_btn p = false) by reflexivity.
  assert (H2 : start_btn p = false) by reflexivity.
  assert (H3 : stop_btn p = false) by reflexivity.
  split; [exact H1|]. split; [exact H2|]. split; [exact H3|].
  destruct (detection_needs_a_fresh_start scripted_cascade 2 p started
              H1 H2 H3) as [Hoff [_ Hnext]].
  split; [exact Hoff|]. rewrite (Hnext p H1 H2 H3). reflexivity.
Defined.

(** A session of alerts with eyes on no face: what is pushed. *)
Example pushes_of_the_demo_session :
  pushed (concat (run_effects demo_settings demo_session initial_state))
  = [(0, 1); (0, 2)]%nat.
Proof. reflexivity. Qed.

Lemma status_is_alarm_in_steady_history_witness :
  let frames := [(demo_settings, closed_at 0); (demo_settings, closed_at 1.6)] in
  monotone_history (frames ++ [(demo_settings, closed_at 2)]) /\
  threshold_not_raised demo_settings frames /\
  current_status (snd (frame_update demo_settings (closed_at 2)
                         (run_with frames initial_state))) = ALERT.
Proof.
  intro frames.
  assert (H1 : monotone_history (frames ++ [(demo_settings, closed_at 2)])).
  { unfold monotone_history. simpl. repeat (constructor; try (simpl; lra)). }
  assert (H2 : threshold_not_raised demo_settings frames).
  { unfold threshold_not_raised. repeat (constructor; try (simpl; lra)). }
  split; [exact H1|]. split; [exact H2|].
  apply (status_is_alarm_in_steady_history frames demo_settings (closed_at 2)
           H1 H2).
  reflexivity.
Defined.

(** The two faces of the frame in either order: the verdict is the same,
    the count is not. *)
Lemma drowsy_ignores_face_order_witness :
  Permutation [mkRegion 0 0 2 2; mkRegion 2 0 2 2]
              [mkRegion 2 0 2 2; mkRegion 0 0 2 2] /\
  outcome (face_loop scripted_cascade 2 frame_left_open
             [mkRegion 0 0 2 2; mkRegion 2 0 2 2] (true, 0%nat))
  = Returned (false, 0%nat) /\
  outcome (face_loop scripted_cascade 2 frame_left_open
             [mkRegion 2 0 2 2; mkRegion 0 0 2 2] (true, 0%nat))
  = Returned (false, 1%nat) /\
  exists n',
    outcome (face_loop scripted_cascade 2 frame_left_open
               [mkRegion 2 0 2 2; mkRegion 0 0 2 2] (true, 0%nat))
    = Returned (false, n').
Proof.
  assert (H1 : Permutation [mkRegion 0 0 2 2; mkRegion 2 0 2 2]
                           [mkRegion 2 0 2 2; mkRegion 0 0 2 2])
    by apply perm_swap.
  assert (H2 : outcome (face_loop scripted_cascade 2 frame_left_open
                          [mkRegion 0 0 2 2; mkRegion 2 0 2 2] (true, 0%nat))
               = Returned (false, 0%nat)) by reflexivity.
  split; [exact H1|]. split; [exact H2|]. split; [reflexivity|].
  exact (drowsy_ignores_face_order scripted_cascade 2 frame_left_open
           _ _ false 0%nat H1 H2).
Defined.

(** Raising the threshold while the alert is on leaves the alert on: the
    eyes close at 0 s and 1 s under a threshold of 0.5 s, the slider goes
    to 5 s, and the frame at 3 s ends with [alarm_on] set although it is
    not 5 s past [closed_start]; its label is the safe one. The clock
    never stepped back. *)
Lemma alarm_outlives_raised_threshold :
  let r := script_runs scripted_cascade 2 slider_session empty_session in
  let frames := script_history scripted_cascade 2 slider_session empty_session in
  map (fun f => (sensitivity (fst f), now (snd f))) frames
  = [(0.5, 0); (0.5, 1); (5, 3)] /\
  drowsiness (session_state_init r) = mkState (Some 0) true 1 true /\
  ~ 5 < 3 - 0 /\
  current_status
    (snd (frame_update (settings_of high_threshold_page) (closed_at 3)
            (mkState (Some 0) true 1 true))) = SAFE.
Proof.
  cbv zeta. split; [vm_compute; reflexivity|].
  split; [vm_compute; reflexivity|]. split; [lra|reflexivity].
Qed.
